(** * Douyin Downloader: a shallow embedding of [main.py]

    The development follows the layout of the Python module:
    - Python text ([str]) as lists of Unicode code points;
    - the fragment of [re] the three share-link patterns use, with
      Python's leftmost, greedy, backtracking search;
    - [extract_douyin_id], [get_download_urls] and the [/download]
      handler, written in a small monad that threads the log of
      outbound HTTP requests and propagates Python exceptions.
    The [slowapi] decorators (rate limits) and the root redirect are
    outside the embedding: they run before the handler bodies and do
    not change what the bodies compute. *)

From Stdlib Require Import String Ascii ZArith NArith DecimalString.
From stdpp Require Import base option list gmap.
From Equations Require Import Equations.

Local Open Scope Z_scope.

(** ** Python text *)

(** A Python [str] is a sequence of Unicode code points. *)
Abbreviation char := N.
Definition str := list char.

(** String literals of the source are ASCII; [u "..."] is the [str]
    with the same characters. *)
Definition u (s : string) : str := List.map N_of_ascii (list_ascii_of_string s).

(** [needle in haystack] on two [str] values: substring test. *)
Fixpoint starts_with (p s : str) : bool :=
  match p, s with
  | [], _ => true
  | _ :: _, [] => false
  | a :: p', b :: s' => if N.eqb a b then starts_with p' s' else false
  end.

Fixpoint str_contains (needle hay : str) : bool :=
  if starts_with needle hay then true
  else match hay with
       | [] => false
       | _ :: hay' => str_contains needle hay'
       end.

(** ** Exceptions *)

(** The exception classes that [main.py] raises or catches.
    [JSONDecodeError] is the class [requests] raises from
    [Response.json()]: it derives from both [RequestException] and
    [ValueError], so the first [except] clause that names either
    catches it. *)
Inductive exn :=
| HTTPException (status_code : Z) (detail : str)
| RequestException (msg : str)
| JSONDecodeError (msg : str)
| KeyError (key : str)
| ValueError (msg : str)
| TypeError (msg : str).

Inductive result (A : Type) :=
| Ok (a : A)
| Raise (e : exn).
Arguments Ok {A} a.
Arguments Raise {A} e.

Definition rbind {A B} (r : result A) (k : A -> result B) : result B :=
  match r with
  | Ok a => k a
  | Raise e => Raise e
  end.

Declare Scope py_scope.
Delimit Scope py_scope with py.
Notation "'let?' x ':=' r 'in' k" := (rbind r (fun x => k))
  (at level 10, x name, r at level 100, k at level 200) : py_scope.
Local Open Scope py_scope.

(** [str(e)] for the exceptions above; [str(KeyError(k))] is the
    [repr] of the key (the keys used here need no escaping). *)
Definition str_of_exn (e : exn) : str :=
  match e with
  | HTTPException _ d => d
  | RequestException m => m
  | JSONDecodeError m => m
  | KeyError k => u "'" ++ k ++ u "'"
  | ValueError m => m
  | TypeError m => m
  end.

(** ** The fragment of [re] used by the patterns *)

Module Re.

(** Character classes [\w] and [\d]. *)
Inductive cclass := Word | Digit.

(** One item of a pattern: a literal character (escaped or not), an
    optional literal [c?], or a capturing group around a greedy
    one-or-more repetition of a class, [(\w+)] or [(\d+)]. *)
Inductive item :=
| Lit (c : char)
| OptLit (c : char)
| GroupPlus (k : cclass).

Definition pattern := list item.

Definition lits (s : string) : pattern := List.map Lit (u s).

Definition is_ascii_digit (c : char) : bool :=
  (N.leb 48 c && N.leb c 57)%N.

Definition is_ascii_word (c : char) : bool :=
  is_ascii_digit c
  || (N.leb 65 c && N.leb c 90)%N
  || (N.leb 97 c && N.leb c 122)%N
  || N.eqb c 95.

Section Matcher.

(** For [str] patterns [\w] and [\d] follow the Unicode database of the
    interpreter: outside ASCII, [\w] is [str.isalnum] and [\d] is
    [str.isdecimal]. The two tables are parameters. *)
Variable unicode_isalnum : char -> bool.
Variable unicode_isdecimal : char -> bool.

Definition in_class (k : cclass) (c : char) : bool :=
  match k with
  | Word => if (c <? 128)%N then is_ascii_word c else unicode_isalnum c
  | Digit => if (c <? 128)%N then is_ascii_digit c else unicode_isdecimal c
  end.

(** Greedy repetition with backtracking: [plus_bt k cont taken s] has
    already consumed [rev taken]; it consumes one more character of the
    class, prefers to go on, and otherwise closes the group and hands
    the rest of the subject to the continuation [cont]. *)
Fixpoint plus_bt (k : cclass) (cont : str -> option (list str))
    (taken : str) (s : str) : option (list str) :=
  match s with
  | [] => None
  | c :: s' =>
      if in_class k c then
        match plus_bt k cont (c :: taken) s' with
        | Some gs => Some gs
        | None =>
            match cont s' with
            | Some gs => Some (rev (c :: taken) :: gs)
            | None => None
            end
        end
      else None
  end.

(** [re_match p s]: match [p] at the start of [s] (the subject may
    continue after the match); the result lists the captured groups. *)
Fixpoint re_match (p : pattern) (s : str) : option (list str) :=
  match p with
  | [] => Some []
  | Lit c :: p' =>
      match s with
      | c' :: s' => if N.eqb c c' then re_match p' s' else None
      | [] => None
      end
  | OptLit c :: p' =>
      match s with
      | c' :: s' =>
          if N.eqb c c' then
            match re_match p' s' with
            | Some gs => Some gs
            | None => re_match p' s
            end
          else re_match p' s
      | [] => re_match p' s
      end
  | GroupPlus k :: p' => plus_bt k (re_match p') [] s
  end.

(** [re.search]: the match at the leftmost position that has one. *)
Fixpoint re_search (p : pattern) (s : str) : option (list str) :=
  match re_match p s with
  | Some gs => Some gs
  | None =>
      match s with
      | [] => None
      | _ :: s' => re_search p s'
      end
  end.

(** Declarative reading of a pattern: [matches p m gs] says that the
    whole of [m] is a word of [p] and [gs] are the groups. *)
Inductive matches : pattern -> str -> list str -> Prop :=
| matches_nil : matches [] [] []
| matches_lit c p m gs :
    matches p m gs -> matches (Lit c :: p) (c :: m) gs
| matches_opt_take c p m gs :
    matches p m gs -> matches (OptLit c :: p) (c :: m) gs
| matches_opt_skip c p m gs :
    matches p m gs -> matches (OptLit c :: p) m gs
| matches_plus k p w m gs :
    w <> [] -> forallb (in_class k) w = true ->
    matches p m gs -> matches (GroupPlus k :: p) (w ++ m) (w :: gs).

(** [rest] does not continue a run of class [k]: it is empty or starts
    with a character outside the class. *)
Definition ends_run (k : cclass) (rest : str) : Prop :=
  match rest with
  | [] => True
  | c :: _ => in_class k c = false
  end.

(** [p] has a match somewhere inside [s]. *)
Definition occurs_in (p : pattern) (s : str) : Prop :=
  exists pre m post gs, s = pre ++ m ++ post /\ matches p m gs.

End Matcher.

End Re.

(** ** [extract_douyin_id] *)

Definition patterns : list Re.pattern :=
  [ Re.lits "http" ++ [Re.OptLit 115%N] ++ Re.lits "://v.douyin.com/"
      ++ [Re.GroupPlus Re.Word];
    Re.lits "http" ++ [Re.OptLit 115%N] ++ Re.lits "://www.douyin.com/video/"
      ++ [Re.GroupPlus Re.Digit];
    Re.lits "http" ++ [Re.OptLit 115%N] ++ Re.lits "://vm.tiktok.com/"
      ++ [Re.GroupPlus Re.Word] ].

Definition invalid_url_detail : str :=
  u "Invalid Douyin URL. Supported formats: "
  ++ u "1. https://v.douyin.com/ABC123/ "
  ++ u "2. https://www.douyin.com/video/1234567890123456789 "
  ++ u "3. https://vm.tiktok.com/ABC123/".

(** The three supported share-link shapes, as the patterns describe
    them: [http] or [https], a host and path prefix, then a non-empty
    identifier drawn from one character class, then anything. *)
Definition link_shapes : list (string * Re.cclass) :=
  [ ("://v.douyin.com/"%string, Re.Word);
    ("://www.douyin.com/video/"%string, Re.Digit);
    ("://vm.tiktok.com/"%string, Re.Word) ].

Definition share_link (https : bool) (host : string) (id rest : str) : str :=
  u "http" ++ (if https then u "s" else []) ++ u host ++ id ++ rest.

Section Extract.

Variable unicode_isalnum : char -> bool.
Variable unicode_isdecimal : char -> bool.

Abbreviation re_search := (Re.re_search unicode_isalnum unicode_isdecimal).

(** [match.group(1)]; every pattern above has one group. *)
Definition group1 (gs : list str) : str := List.hd [] gs.

(** The [for pattern in patterns] loop. *)
Fixpoint first_match (ps : list Re.pattern) (url : str) : option str :=
  match ps with
  | [] => None
  | p :: ps' =>
      match re_search p url with
      | Some gs => Some (group1 gs)
      | None => first_match ps' url
      end
  end.

Definition extract_douyin_id (url : str) : result str :=
  match first_match patterns url with
  | Some id => Ok id
  | None => Raise (HTTPException 400 invalid_url_detail)
  end.

End Extract.

(** Two sample Unicode tables used to run the definitions: one with no
    word characters outside ASCII, one in which the CJK unified
    ideographs (U+4E00 to U+9FFF) are alphanumeric, as they are in
    Python. *)
Definition no_unicode : char -> bool := fun _ => false.
Definition cjk_isalnum : char -> bool :=
  fun c => (N.leb 19968 c && N.leb c 40959)%N.

(** ** Python values *)

Definition bytes := list Byte.byte.

(** What [json.loads] produces, and so every value the handlers see. *)
#[warnings="-register-all"]
Inductive pyval :=
| PNone
| PBool (b : bool)
| PInt (z : Z)
| PFloat (literal : str)
| PStr (s : str)
| PList (l : list pyval)
| PDict (d : gmap str pyval).

(** [str_of_int z] is [str(z)]. *)
Definition str_of_int (z : Z) : str := u (NilZero.string_of_int (Z.to_int z)).

Definition type_name (v : pyval) : str :=
  match v with
  | PNone => u "NoneType"
  | PBool _ => u "bool"
  | PInt _ => u "int"
  | PFloat _ => u "float"
  | PStr _ => u "str"
  | PList _ => u "list"
  | PDict _ => u "dict"
  end.

(** [key in v] for a [str] key: key membership on a dict, element
    membership on a list, substring on a [str], [TypeError] on values
    that are not containers. *)
Definition py_in (key : str) (v : pyval) : result bool :=
  match v with
  | PDict d => Ok (bool_decide (is_Some (d !! key)))
  | PList l =>
      Ok (existsb (fun x => match x with
                            | PStr s => bool_decide (s = key)
                            | _ => false
                            end) l)
  | PStr s => Ok (str_contains key s)
  | _ => Raise (TypeError (u "argument of type '" ++ type_name v
                           ++ u "' is not iterable"))
  end.

(** [v[key]] for a [str] key: lookup on a dict ([KeyError] when the key
    is absent), [TypeError] on every other value. *)
Definition py_getitem (v : pyval) (key : str) : result pyval :=
  match v with
  | PDict d =>
      match d !! key with
      | Some x => Ok x
      | None => Raise (KeyError key)
      end
  | PList _ => Raise (TypeError (u "list indices must be integers or slices, not str"))
  | PStr _ => Raise (TypeError (u "string indices must be integers, not 'str'"))
  | _ => Raise (TypeError (u "'" ++ type_name v ++ u "' object is not subscriptable"))
  end.

(** ** Outbound HTTP *)

Record Request := {
  req_url : pyval;
  req_headers : list (str * str);
  req_timeout : Z;
  req_stream : bool
}.

(** How the body of a response is framed on the wire: sent whole under a
    [Content-Length], or as the payloads of the chunks of
    [Transfer-Encoding: chunked], in order (an empty payload is the
    terminating chunk). *)
Inductive Body :=
| ContentLength (raw : bytes)
| Chunked (payloads : list bytes).

(** The streaming decoder that a [Content-Encoding] (gzip, deflate, ...)
    selects, as [urllib3] drives it: [decompress fed piece] is what
    feeding [piece] gives after the pieces [fed], and [flush fed] is what
    the decoder still holds at the end. The codecs are library code and
    are left as a parameter of the response. *)
Record Decoder := {
  decompress : list bytes -> bytes -> bytes;
  flush : list bytes -> bytes
}.

(** The part of a [requests.Response] the module reads: the status line,
    the body as it is framed, the decoder of its [Content-Encoding]
    ([None] when the header is absent), and what [Response.json()] gives
    for that body (the error text when the body is not JSON). *)
Record Response := {
  status_code : Z;
  reason : str;
  resp_url : str;
  body : Body;
  content_encoding : option Decoder;
  json_body : str + pyval
}.

(** The outside world: what [requests.get] does with a request, given
    the requests sent before it. [inl msg] is a [RequestException]
    (connection error, timeout, unusable URL, ...). *)
Definition network := list Request -> Request -> str + Response.

(** Computations log the requests they send and may raise. *)
Definition M (A : Type) := list Request -> result A * list Request.

Definition ret {A} (a : A) : M A := fun log => (Ok a, log).
Definition raise {A} (e : exn) : M A := fun log => (Raise e, log).
Definition bind {A B} (c : M A) (k : A -> M B) : M B :=
  fun log =>
    match c log with
    | (Ok a, log') => k a log'
    | (Raise e, log') => (Raise e, log')
    end.
Definition lift {A} (r : result A) : M A := fun log => (r, log).

(** [try: body except ...: handler]; the handler returns [None] for an
    exception that no clause catches. *)
Definition try_except {A} (body : M A) (handler : exn -> option (M A)) : M A :=
  fun log =>
    match body log with
    | (Ok a, log') => (Ok a, log')
    | (Raise e, log') =>
        match handler e with
        | Some h => h log'
        | None => (Raise e, log')
        end
    end.

Notation "'let*' x ':=' c 'in' k" := (bind c (fun x => k))
  (at level 10, x name, c at level 100, k at level 200) : py_scope.
Definition requests_get (net : network) (r : Request) : M Response :=
  fun log =>
    match net log r with
    | inl msg => (Raise (RequestException msg), log ++ [r])
    | inr resp => (Ok resp, log ++ [r])
    end.

(** [Response.raise_for_status]: [HTTPError], a [RequestException], on
    a 4xx or 5xx status. *)
Definition raise_for_status (resp : Response) : result unit :=
  if (400 <=? status_code resp) && (status_code resp <? 500) then
    Raise (RequestException
             (str_of_int (status_code resp) ++ u " Client Error: " ++ reason resp
              ++ u " for url: " ++ resp_url resp))
  else if (500 <=? status_code resp) && (status_code resp <? 600) then
    Raise (RequestException
             (str_of_int (status_code resp) ++ u " Server Error: " ++ reason resp
              ++ u " for url: " ++ resp_url resp))
  else Ok tt.

Definition response_json (resp : Response) : result pyval :=
  match json_body resp with
  | inl msg => Raise (JSONDecodeError msg)
  | inr v => Ok v
  end.

(** Reading [amt] bytes at a time until nothing is left: what repeated
    [raw.read(amt)] gives on a plain body, and what repeated
    [_handle_chunk(amt)] gives on the payload of one transfer chunk. *)
Equations? cut_pieces (amt : nat) (raw : bytes) : list bytes
  by wf (length raw) lt :=
  cut_pieces 0 _ := [];
  cut_pieces (S n) [] := [];
  cut_pieces (S n) (b :: raw) :=
    take (S n) (b :: raw) :: cut_pieces (S n) (drop (S n) (b :: raw)).
Proof. rewrite length_drop. simpl. lia. Qed.

(** The payloads before the terminating chunk. *)
Fixpoint until_terminator (payloads : list bytes) : list bytes :=
  match payloads with
  | [] => []
  | [] :: _ => []
  | payload :: rest => payload :: until_terminator rest
  end.

(** The bytes of the body as they are sent. *)
Definition wire_body (response : Response) : bytes :=
  match body response with
  | ContentLength raw => raw
  | Chunked payloads => List.concat (until_terminator payloads)
  end.

(** [if decoded: yield decoded]. *)
Definition yield_nonempty (piece : bytes) : list bytes :=
  match piece with
  | [] => []
  | _ :: _ => [piece]
  end.

(** The pieces are fed to the decoder one by one and each non-empty
    output is yielded; at the end the decoder is flushed. *)
Fixpoint decode_pieces (d : Decoder) (fed : list bytes) (pieces : list bytes)
  : list bytes :=
  match pieces with
  | [] => yield_nonempty (flush d fed)
  | piece :: rest =>
      yield_nonempty (decompress d fed piece)
      ++ decode_pieces d (fed ++ [piece]) rest
  end.

(** [Response.iter_content(chunk_size)] on a streamed response, that is
    [raw.stream(chunk_size, decode_content=True)] of [urllib3].
    - A chunked body goes through [read_chunked]: every transfer chunk
      is read in pieces of at most [chunk_size] bytes, each piece is
      decoded and yielded as it comes, whatever its decoded length.
    - A body with a [Content-Length] goes through [read(chunk_size)]
      until the end. Without a content encoding this gives the body in
      blocks of [chunk_size]. With one, [urllib3] 2.x buffers the decoded
      bytes and hands them out in blocks of [chunk_size] (1.26 yields the
      decoded output of each read as it is).
    Decoding errors surface while the body is streamed, after the
    handler has returned. *)
Definition iter_content (chunk_size : nat) (response : Response) : list bytes :=
  match body response, content_encoding response with
  | Chunked payloads, None =>
      List.concat (List.map (cut_pieces chunk_size) (until_terminator payloads))
  | Chunked payloads, Some d =>
      decode_pieces d []
        (List.concat (List.map (cut_pieces chunk_size) (until_terminator payloads)))
  | ContentLength raw, None => cut_pieces chunk_size raw
  | ContentLength raw, Some d =>
      cut_pieces chunk_size
        (List.concat (decode_pieces d [] (cut_pieces chunk_size raw)))
  end.

Definition USER_AGENT : str :=
  u "Mozilla/5.0 (Windows NT 10.0; Win64; x64) AppleWebKit/537.36 (KHTML, like Gecko) Chrome/125.0.0.0 Safari/537.36".

Definition CHUNK_SIZE : Z := 1024 * 1024.

(** ** [get_download_urls] *)

Definition api_url (video_id : str) : str :=
  u "https://api.douyin.wtf/api?url=https://www.douyin.com/video/" ++ video_id.

Definition resolver_request (video_id : str) : Request :=
  {| req_url := PStr (api_url video_id);
     req_headers := [(u "User-Agent", USER_AGENT)];
     req_timeout := 15;
     req_stream := false |}.

(** The body of the [try] block after [response.json()]. The [or] of
    the structure test is short-circuit: the second membership test runs
    only when the first key is there. The dict display evaluates the
    ["video"] entry before the ["audio"] entry. *)
Definition parse_urls (data : pyval) : result (gmap str pyval) :=
  let? has_video := py_in (u "video_data") data in
  let? invalid :=
    (if negb has_video then Ok true
     else let? has_music := py_in (u "music_data") data in
          Ok (negb has_music)) in
  if (invalid : bool) then Raise (ValueError (u "Invalid API response structure"))
  else
    let? video :=
      (let? video_data := py_getitem data (u "video_data") in
       py_getitem video_data (u "nwm_video_url")) in
    let? audio :=
      (let? music_data := py_getitem data (u "music_data") in
       let? play_url := py_getitem music_data (u "play_url") in
       py_getitem play_url (u "uri")) in
    Ok (<[u "video" := video]> (<[u "audio" := audio]> ∅)).

Definition get_download_urls (net : network) (video_id : str)
  : M (gmap str pyval) :=
  try_except
    (let* response := requests_get net (resolver_request video_id) in
     let* _ := lift (raise_for_status response) in
     let* data := lift (response_json response) in
     lift (parse_urls data))
    (fun e =>
       match e with
       | RequestException _ | JSONDecodeError _ =>
           Some (raise (HTTPException 502
                          (u "API request failed: " ++ str_of_exn e)))
       | KeyError _ | ValueError _ =>
           Some (raise (HTTPException 502
                          (u "API response error: " ++ str_of_exn e)))
       | _ => None
       end).

(** ** Request handlers *)

(** The JSON object [/info] answers with. *)
Record Info := {
  info_status : str;
  info_video_id : str;
  info_video_url : pyval;
  info_audio_url : pyval
}.

Record StreamingResponse := {
  body_iterator : list bytes;
  media_type_header : str;
  headers : gmap str str
}.

(** [d[key]] on the dict that [get_download_urls] returns. *)
Definition dict_getitem (d : gmap str pyval) (key : str) : result pyval :=
  match d !! key with
  | Some x => Ok x
  | None => Raise (KeyError key)
  end.

Definition media_request (media_url : pyval) : Request :=
  {| req_url := media_url;
     req_headers := [(u "User-Agent", USER_AGENT)];
     req_timeout := 30;
     req_stream := true |}.

Definition is_video (media_type : str) : bool := bool_decide (media_type = u "video").

Definition content_disposition (media_type video_id : str) : str :=
  u "attachment; filename=douyin_" ++ media_type ++ u "_" ++ video_id
  ++ (if is_video media_type then u ".mp4" else u ".mp3").

(** [str.encode("latin-1")], as far as it can fail: the first character
    above U+00FF, with the run of such characters that follows it, is
    reported by [UnicodeEncodeError]. That class derives from
    [ValueError], and no [except] clause of the module tells the two
    apart, so it is raised here as [ValueError] with its message. *)
Definition hex_digit (d : N) : char :=
  (if d <? 10 then 48 + d else 87 + d)%N.

Fixpoint hex_fixed (width : nat) (c : N) : str :=
  match width with
  | O => []
  | S w => hex_fixed w (c / 16)%N ++ [hex_digit (c mod 16)%N]
  end.

Definition escape_char (c : char) : str :=
  if (c <? 65536)%N then u "\u" ++ hex_fixed 4 c else u "\U" ++ hex_fixed 8 c.

Fixpoint first_unencodable (s : str) (pos : nat) : option (nat * char * str) :=
  match s with
  | [] => None
  | c :: s' =>
      if (c <? 256)%N then first_unencodable s' (S pos) else Some (pos, c, s')
  end.

Fixpoint run_unencodable (s : str) : nat :=
  match s with
  | [] => O
  | c :: s' => if (c <? 256)%N then O else S (run_unencodable s')
  end.

Definition latin1_encode (s : str) : result unit :=
  match first_unencodable s 0 with
  | None => Ok tt
  | Some (start, c, rest) =>
      Raise (ValueError
               (u "'latin-1' codec can't encode "
                ++ match run_unencodable rest with
                   | O =>
                       u "character '" ++ escape_char c ++ u "' in position "
                       ++ str_of_int (Z.of_nat start)
                   | S more =>
                       u "characters in position " ++ str_of_int (Z.of_nat start)
                       ++ u "-" ++ str_of_int (Z.of_nat (start + S more))
                   end
                ++ u ": ordinal not in range(256)"))
  end.

(** [StreamingResponse(content, media_type=..., headers={"Content-Disposition": v})].
    Starlette's [init_headers] encodes every header name and value as
    latin-1. The one name and the two media types used here are ASCII,
    so the constructor fails exactly when the [Content-Disposition]
    value cannot be encoded. *)
Definition new_StreamingResponse (content : list bytes) (media_type : str)
    (disposition : str) : result StreamingResponse :=
  let? _ := latin1_encode disposition in
  Ok {| body_iterator := content;
        media_type_header := media_type;
        headers := {[ u "Content-Disposition" := disposition ]} |}.

Definition default_media_type : str := u "video".

(** The resolver answered the request for [video_id] with a status that
    [raise_for_status] accepts and a body that decodes to [data]. *)
Definition resolver_answers (net : network) (video_id : str)
    (log : list Request) (data : pyval) : Prop :=
  exists response,
    net log (resolver_request video_id) = inr response
    /\ raise_for_status response = Ok tt
    /\ json_body response = inr data.

(** A decoded response from which one of the keys on the way to the two
    URLs is absent, the envelopes before that key being objects. *)
Inductive missing_field : pyval -> Prop :=
| missing_video_data d :
    d !! u "video_data" = None -> missing_field (PDict d)
| missing_music_data d :
    d !! u "music_data" = None -> missing_field (PDict d)
| missing_nwm_video_url d vd :
    d !! u "video_data" = Some (PDict vd) ->
    vd !! u "nwm_video_url" = None -> missing_field (PDict d)
| missing_play_url d vd md :
    d !! u "video_data" = Some (PDict vd) ->
    d !! u "music_data" = Some (PDict md) ->
    md !! u "play_url" = None -> missing_field (PDict d)
| missing_uri d vd md pu :
    d !! u "video_data" = Some (PDict vd) ->
    d !! u "music_data" = Some (PDict md) ->
    md !! u "play_url" = Some (PDict pu) ->
    pu !! u "uri" = None -> missing_field (PDict d).

(** A failure of the media fetch: the request for the media URL raises,
    or its response has an error status. *)
Definition media_fetch_fails (net : network) (log1 : list Request)
    (media_url : pyval) : Prop :=
  match net log1 (media_request media_url) with
  | inl _ => True
  | inr response => exists e, raise_for_status response = Raise e
  end.

(** The [except] clauses of [get_video_info], in order: an
    [HTTPException] is re-raised, anything else becomes a 500. *)
Definition info_except (e : exn) : exn :=
  match e with
  | HTTPException _ _ => e
  | _ => HTTPException 500 (u "Unexpected error: " ++ str_of_exn e)
  end.

(** The [except] clauses of [download_douyin], in order: an
    [HTTPException] is re-raised, a [RequestException] becomes a 504,
    anything else a 500. *)
Definition download_except (e : exn) : exn :=
  match e with
  | HTTPException _ _ => e
  | RequestException _ | JSONDecodeError _ =>
      HTTPException 504 (u "Download failed: " ++ str_of_exn e)
  | _ => HTTPException 500 (u "Unexpected error: " ++ str_of_exn e)
  end.

Definition invalid_media_type_detail : str :=
  u "Invalid media type. Choose 'video' or 'audio'".

Section Handlers.

Variable unicode_isalnum : char -> bool.
Variable unicode_isdecimal : char -> bool.
Variable net : network.

Abbreviation extract := (extract_douyin_id unicode_isalnum unicode_isdecimal).

Definition get_video_info (url : str) : M Info :=
  try_except
    (let* video_id := lift (extract url) in
     let* download_urls := get_download_urls net video_id in
     let* video := lift (dict_getitem download_urls (u "video")) in
     let* audio := lift (dict_getitem download_urls (u "audio")) in
     ret {| info_status := u "success";
            info_video_id := video_id;
            info_video_url := video;
            info_audio_url := audio |})
    (fun e => Some (raise (info_except e))).

Definition download_douyin (url : str) (media_type : str) : M StreamingResponse :=
  try_except
    (let* video_id := lift (extract url) in
     let* download_urls := get_download_urls net video_id in
     let* _ :=
       (if bool_decide (is_Some (download_urls !! media_type)) then ret tt
        else raise (HTTPException 400 invalid_media_type_detail)) in
     let* media_url := lift (dict_getitem download_urls media_type) in
     let* response := requests_get net (media_request media_url) in
     let* _ := lift (raise_for_status response) in
     lift (new_StreamingResponse
             (iter_content (Z.to_nat CHUNK_SIZE) response)
             (if is_video media_type then u "video/mp4" else u "audio/mpeg")
             (content_disposition media_type video_id)))
    (fun e => Some (raise (download_except e))).

End Handlers.

(** ** Sample worlds

    Small networks used to run the handlers. *)

Definition json_object (kvs : list (str * pyval)) : pyval :=
  PDict (list_to_map kvs).

Definition resolver_json (video audio : pyval) : pyval :=
  json_object
    [ (u "video_data", json_object [(u "nwm_video_url", video)]);
      (u "music_data",
       json_object [(u "play_url", json_object [(u "uri", audio)])]) ].

Definition ok_response (body : bytes) (js : str + pyval) : Response :=
  {| status_code := 200; reason := u "OK"; resp_url := u "";
     body := ContentLength body; content_encoding := None;
     json_body := js |}.

(** The resolver answers with [js]; every other request gets a
    ten-byte body that is not JSON. *)
Definition sample_body : bytes :=
  [Byte.x00; Byte.x01; Byte.x02; Byte.x03; Byte.x04;
   Byte.x05; Byte.x06; Byte.x07; Byte.x08; Byte.x09].

Definition net_with_resolver (js : pyval) : network :=
  fun _ r =>
    if req_stream r then inr (ok_response sample_body (inl (u "Expecting value")))
    else inr (ok_response [] (inr js)).

Definition net_ok : network :=
  net_with_resolver
    (resolver_json (PStr (u "https://cdn.example/v.mp4"))
                   (PStr (u "https://cdn.example/a.mp3"))).

(** The resolver answers with both URLs present and empty. *)
Definition net_empty_urls : network :=
  net_with_resolver (resolver_json (PStr []) (PStr [])).

(** The resolver answers [{"video_data": null, "music_data": {...}}]. *)
Definition net_null_video_data : network :=
  net_with_resolver
    (json_object
       [ (u "video_data", PNone);
         (u "music_data",
          json_object
            [(u "play_url",
              json_object [(u "uri", PStr (u "https://cdn.example/a.mp3"))])]) ]).

(** The resolver answers without the [uri] key. *)
Definition net_missing_uri : network :=
  net_with_resolver
    (json_object
       [ (u "video_data",
          json_object [(u "nwm_video_url", PStr (u "https://cdn.example/v.mp4"))]);
         (u "music_data", json_object [(u "play_url", json_object [])]) ]).

(** The resolver works, the media host does not answer in time. *)
Definition net_media_timeout : network :=
  fun log r =>
    if req_stream r then inl (u "Read timed out.") else net_ok log r.

(** No request gets through. *)
Definition net_down : network := fun _ _ => inl (u "Connection refused").

(** The resolver cannot be used: the request raises, or the response
    has an error status, or its body is not JSON. *)
Definition resolver_unavailable (net : network) (video_id : str)
    (log : list Request) : Prop :=
  match net log (resolver_request video_id) with
  | inl _ => True
  | inr response =>
      400 <= status_code response < 600
      \/ exists msg, json_body response = inl msg
  end.

(** The resolver answers with a JSON array. *)
Definition net_array_answer : network :=
  net_with_resolver (PList [PStr (u "error")]).

(** The resolver works, the media host answers 404. *)
Definition net_media_404 : network :=
  fun log r =>
    if req_stream r then
      inr {| status_code := 404; reason := u "Not Found";
             resp_url := u "https://cdn.example/v.mp4";
             body := ContentLength []; content_encoding := None;
             json_body := inl (u "Expecting value") |}
    else net_ok log r.

(** The resolver answers 500. *)
Definition net_resolver_500 : network :=
  fun _ r =>
    inr {| status_code := 500; reason := u "Internal Server Error";
           resp_url := u "https://api.douyin.wtf/api";
           body := ContentLength []; content_encoding := None;
           json_body := inl (u "Expecting value") |}.

(** The media host sends 1 MiB and five bytes of zeros under a
    [Content-Length]. *)
Definition big_body : bytes := replicate (Z.to_nat CHUNK_SIZE + 5) Byte.x00.

Definition big_response : Response :=
  {| status_code := 200; reason := u "OK";
     resp_url := u "https://cdn.example/v.mp4";
     body := ContentLength big_body;
     content_encoding := None;
     json_body := inl (u "Expecting value") |}.

Definition net_big_body : network :=
  fun log r => if req_stream r then inr big_response else net_ok log r.

(** The media host sends the ten bytes in transfer chunks of 3, 3 and 4
    bytes. *)
Definition chunked_response : Response :=
  {| status_code := 200; reason := u "OK";
     resp_url := u "https://cdn.example/v.mp4";
     body := Chunked [ [Byte.x00; Byte.x01; Byte.x02];
                       [Byte.x03; Byte.x04; Byte.x05];
                       [Byte.x06; Byte.x07; Byte.x08; Byte.x09];
                       [] ];
     content_encoding := None;
     json_body := inl (u "Expecting value") |}.

Definition net_chunked_body : network :=
  fun log r => if req_stream r then inr chunked_response else net_ok log r.

(** The gzip stream of 1 MiB and one byte of zeros, as [zlib] writes it
    at level 9 with no time stamp: 1051 bytes, the last four of them the
    length 1048577. *)
Definition gzip_of_zeros : bytes :=
  [Byte.x1f; Byte.x8b; Byte.x08; Byte.x00; Byte.x00; Byte.x00; Byte.x00;
   Byte.x00; Byte.x02; Byte.x03; Byte.xed; Byte.xc1; Byte.x31; Byte.x01;
   Byte.x00; Byte.x00; Byte.x00; Byte.xc2; Byte.xa0; Byte.xf5; Byte.x4f;
   Byte.x6d; Byte.x08; Byte.x5f; Byte.xa0]
  ++ replicate 1016 Byte.x00
  ++ [Byte.x4e; Byte.x03; Byte.x28; Byte.x8b; Byte.xa4; Byte.xc6;
      Byte.x01; Byte.x00; Byte.x10; Byte.x00].

Fixpoint bytes_eqb (a b : bytes) : bool :=
  match a, b with
  | [], [] => true
  | x :: a', y :: b' => Byte.eqb x y && bytes_eqb a' b'
  | _, _ => false
  end.

(** What the gzip decoder does with that stream when it is fed whole. *)
Definition big_zeros : bytes := replicate (S (Z.to_nat CHUNK_SIZE)) Byte.x00.

Definition gunzip_zeros : Decoder :=
  {| decompress := fun _ piece =>
       if bytes_eqb piece gzip_of_zeros then big_zeros else [];
     flush := fun _ => [] |}.

(** The media host sends that stream as one transfer chunk with
    [Content-Encoding: gzip]. *)
Definition gzip_response : Response :=
  {| status_code := 200; reason := u "OK";
     resp_url := u "https://cdn.example/v.mp4";
     body := Chunked [gzip_of_zeros; []];
     content_encoding := Some gunzip_zeros;
     json_body := inl (u "Expecting value") |}.

Definition net_gzip_chunked : network :=
  fun log r => if req_stream r then inr gzip_response else net_ok log r.

(** * Properties *)

(** ** The matcher against the declarative reading of patterns *)

Module ReFacts.
Import Re.

Section Facts.

Variable unicode_isalnum : char -> bool.
Variable unicode_isdecimal : char -> bool.

Abbreviation in_class := (Re.in_class unicode_isalnum unicode_isdecimal).
Abbreviation plus_bt := (Re.plus_bt unicode_isalnum unicode_isdecimal).
Abbreviation re_match := (Re.re_match unicode_isalnum unicode_isdecimal).
Abbreviation re_search := (Re.re_search unicode_isalnum unicode_isdecimal).
Abbreviation matches := (Re.matches unicode_isalnum unicode_isdecimal).
Abbreviation occurs_in := (Re.occurs_in unicode_isalnum unicode_isdecimal).

(** A successful repetition consumed a non-empty run [w] of the class and
    the continuation accepted what follows. *)
Lemma plus_bt_sound k cont s : forall taken gs',
  plus_bt k cont taken s = Some gs' ->
  exists w rest gs,
    w <> [] /\ forallb (in_class k) w = true /\ s = w ++ rest
    /\ cont rest = Some gs /\ gs' = (rev taken ++ w) :: gs.
Proof.
  induction s as [|c s IH]; intros taken gs' H; simpl in H; [discriminate|].
  destruct (in_class k c) eqn:Hc; [|discriminate].
  destruct (plus_bt k cont (c :: taken) s) as [gs1|] eqn:Hrec.
  - injection H as <-.
    destruct (IH _ _ Hrec) as (w & rest & gs & Hw & Hall & -> & Hcont & ->).
    exists (c :: w), rest, gs. repeat split; try done.
    + simpl. by rewrite Hc.
    + simpl. by rewrite <- app_assoc.
  - destruct (cont s) as [gs|] eqn:Hcont; [|discriminate].
    injection H as <-.
    exists [c], s, gs. repeat split; try done.
    simpl. by rewrite Hc.
Qed.

(** Whenever some non-empty run of the class is followed by an input the
    continuation accepts, the repetition succeeds (possibly with a
    longer run: it is greedy). *)
Lemma plus_bt_complete k cont w : forall taken rest,
  w <> [] -> forallb (in_class k) w = true ->
  is_Some (cont rest) ->
  is_Some (plus_bt k cont taken (w ++ rest)).
Proof.
  induction w as [|c w IH]; intros taken rest Hne Hall Hcont; [done|].
  simpl in Hall. apply andb_true_iff in Hall as [Hc Hall].
  simpl. rewrite Hc.
  destruct w as [|c' w].
  - simpl. destruct (plus_bt _ _ (_ :: _) _); [by eexists|].
    destruct Hcont as [gs ->]. by eexists.
  - destruct (IH (c :: taken) rest) as [gs Hgs]; [done|done|done|].
    rewrite Hgs. by eexists.
Qed.

Lemma re_match_sound p : forall s gs,
  re_match p s = Some gs ->
  exists m rest, s = m ++ rest /\ matches p m gs.
Proof.
  induction p as [|[c|c|k] p IH]; intros s gs H; simpl in H.
  - injection H as <-. exists [], s. split; [done|constructor].
  - destruct s as [|c' s]; [discriminate|].
    destruct (N.eqb_spec c c') as [<-|]; [|discriminate].
    destruct (IH _ _ H) as (m & rest & -> & Hm).
    exists (c :: m), rest. split; [done|by constructor].
  - assert (Hskip : re_match p s = Some gs ->
                    exists m rest, s = m ++ rest /\ matches (OptLit c :: p) m gs).
    { intros H'. destruct (IH _ _ H') as (m & rest & -> & Hm).
      exists m, rest. split; [done|by apply matches_opt_skip]. }
    destruct s as [|c' s]; [by apply Hskip|].
    destruct (N.eqb_spec c c') as [<-|]; [|by apply Hskip].
    destruct (re_match p s) as [gs1|] eqn:Htake; [|by apply Hskip].
    injection H as <-.
    destruct (IH _ _ Htake) as (m & rest & -> & Hm).
    exists (c :: m), rest. split; [done|by apply matches_opt_take].
  - destruct (plus_bt_sound _ _ _ _ _ H)
      as (w & rest & gs1 & Hw & Hall & -> & Hcont & ->).
    destruct (IH _ _ Hcont) as (m & rest' & -> & Hm).
    exists (w ++ m), rest'. split; [by rewrite <- app_assoc|].
    simpl. by constructor.
Qed.

Lemma re_match_complete p m gs :
  matches p m gs -> forall rest, is_Some (re_match p (m ++ rest)).
Proof.
  induction 1 as [|c p m gs _ IH|c p m gs _ IH|c p m gs _ IH
                  |k p w m gs Hw Hall _ IH]; intros rest; simpl.
  - by eexists.
  - rewrite N.eqb_refl. apply IH.
  - rewrite N.eqb_refl. destruct (IH rest) as [gs' ->]. by eexists.
  - destruct (m ++ rest) as [|c' s] eqn:Hs; [rewrite <- Hs; apply IH|].
    destruct (N.eqb_spec c c') as [<-|]; [|rewrite <- Hs; apply IH].
    destruct (re_match p s); [by eexists|]. rewrite <- Hs. apply IH.
  - rewrite <- app_assoc. by apply plus_bt_complete.
Qed.

(** [re.search] succeeds exactly when the pattern occurs somewhere, and
    it reports the occurrence that starts leftmost. *)
Lemma re_search_sound p s : forall gs,
  re_search p s = Some gs ->
  exists pre m post,
    s = pre ++ m ++ post /\ matches p m gs
    /\ forall pre' m' post' gs',
         s = pre' ++ m' ++ post' -> matches p m' gs' ->
         (length pre <= length pre')%nat.
Proof.
  induction s as [|c s IH]; intros gs H; simpl in H.
  - destruct (re_match p []) as [gs1|] eqn:Hm; [|discriminate].
    injection H as <-.
    destruct (re_match_sound _ _ _ Hm) as (m & rest & Hs & Hmm).
    exists [], m, rest. repeat split; try done. intros. simpl. lia.
  - destruct (re_match p (c :: s)) as [gs1|] eqn:Hm.
    + injection H as <-.
      destruct (re_match_sound _ _ _ Hm) as (m & rest & Hs & Hmm).
      exists [], m, rest. repeat split; try done. intros. simpl. lia.
    + destruct (IH _ H) as (pre & m & post & -> & Hmm & Hleft).
      exists (c :: pre), m, post. repeat split; try done.
      intros pre' m' post' gs' Hs Hm'.
      destruct pre' as [|c' pre'].
      * simpl in Hs. destruct (re_match_complete _ _ _ Hm' post') as [x Hx].
        rewrite <- Hs in Hx. congruence.
      * simpl in Hs. injection Hs as _ Hs. simpl.
        specialize (Hleft _ _ _ _ Hs Hm'). lia.
Qed.

Lemma re_search_unfold p s :
  re_search p s =
  match re_match p s with
  | Some gs => Some gs
  | None => match s with [] => None | _ :: s' => re_search p s' end
  end.
Proof. by destruct s. Qed.

Lemma re_search_complete p s :
  occurs_in p s -> is_Some (re_search p s).
Proof.
  intros (pre & m & post & gs & -> & Hm).
  induction pre as [|c pre IH]; rewrite re_search_unfold.
  - destruct (re_match_complete _ _ _ Hm post) as [gs' Hgs'].
    simpl. rewrite Hgs'. by eexists.
  - simpl. destruct (re_match p _); [by eexists|]. apply IH.
Qed.

Lemma re_search_None p s :
  re_search p s = None <-> ~ occurs_in p s.
Proof.
  split.
  - intros H Hocc. destruct (re_search_complete _ _ Hocc) as [gs Hgs]. congruence.
  - intros H. destruct (re_search p s) as [gs|] eqn:Hs; [|done].
    exfalso. apply H.
    destruct (re_search_sound _ _ _ Hs) as (pre & m & post & -> & Hm & _).
    by exists pre, m, post, gs.
Qed.

End Facts.

End ReFacts.

(** ** [extract_douyin_id] *)

Section ExtractFacts.

Variable unicode_isalnum : char -> bool.
Variable unicode_isdecimal : char -> bool.

Abbreviation in_class := (Re.in_class unicode_isalnum unicode_isdecimal).
Abbreviation re_match := (Re.re_match unicode_isalnum unicode_isdecimal).
Abbreviation re_search := (Re.re_search unicode_isalnum unicode_isdecimal).
Abbreviation matches := (Re.matches unicode_isalnum unicode_isdecimal).
Abbreviation occurs_in := (Re.occurs_in unicode_isalnum unicode_isdecimal).
Abbreviation first_match := (first_match unicode_isalnum unicode_isdecimal).
Abbreviation extract := (extract_douyin_id unicode_isalnum unicode_isdecimal).

Abbreviation ends_run := (Re.ends_run unicode_isalnum unicode_isdecimal).

Lemma patterns_shapes :
  patterns =
  List.map (fun '(host, k) =>
              Re.lits "http" ++ [Re.OptLit 115%N] ++ Re.lits host ++ [Re.GroupPlus k])
           link_shapes.
Proof. reflexivity. Qed.




Lemma re_match_opt_skip c c' p s :
  c <> c' -> re_match (Re.OptLit c :: p) (c' :: s) = re_match p (c' :: s).
Proof. intros H. simpl. by destruct (N.eqb_spec c c'). Qed.


Lemma first_match_Some ps url id :
  first_match ps url = Some id ->
  exists i p gs,
    ps !! i = Some p /\ re_search p url = Some gs /\ id = group1 gs
    /\ forall j q, (j < i)%nat -> ps !! j = Some q -> re_search q url = None.
Proof.
  induction ps as [|p ps IH]; simpl; [done|].
  destruct (re_search p url) as [gs|] eqn:Hp.
  - intros [= <-]. exists 0%nat, p, gs. repeat split; try done. lia.
  - intros H. destruct (IH H) as (i & q & gs & Hi & Hq & -> & Hfirst).
    exists (S i), q, gs. repeat split; try done.
    intros [|j] q' Hj Hq'; simpl in Hq'; [congruence|].
    apply (Hfirst j); [lia|done].
Qed.

Lemma first_match_None ps url :
  first_match ps url = None <-> forall p, p ∈ ps -> re_search p url = None.
Proof.
  induction ps as [|p ps IH]; simpl.
  - split; [|done]. intros _ p Hp. by apply elem_of_nil in Hp.
  - destruct (re_search p url) as [gs|] eqn:Hp.
    + split; [done|]. intros H.
      assert (Hin : p ∈ p :: ps) by (apply elem_of_cons; by left).
      specialize (H p Hin). congruence.
    + rewrite IH. split.
      * intros H q [->|Hq]%elem_of_cons; auto.
      * intros H q Hq. apply H. apply elem_of_cons. by right.
Qed.





(** C5: when none of the three patterns occurs anywhere in the input,
    [extract_douyin_id] raises [HTTPException] with status 400 and no
    identifier is returned; the detail text lists one example link for
    each of the three supported shapes. *)
Theorem extract_rejects_unmatched url :
  (forall p, p ∈ patterns -> ~ occurs_in p url) ->
  extract url = Raise (HTTPException 400 invalid_url_detail)
  /\ (forall id, extract url <> Ok id)
  /\ str_contains (u "https://v.douyin.com/ABC123/") invalid_url_detail = true
  /\ str_contains (u "https://www.douyin.com/video/1234567890123456789")
       invalid_url_detail = true
  /\ str_contains (u "https://vm.tiktok.com/ABC123/") invalid_url_detail = true.
Proof.
  intros Hnone.
  assert (Hfm : first_match patterns url = None).
  { apply first_match_None. intros p Hp. apply ReFacts.re_search_None. auto. }
  unfold extract_douyin_id. rewrite Hfm.
  split; [done|]. split; [done|]. by vm_compute.
Qed.

End ExtractFacts.

(** The three example links of the error text, one per shape. *)
Example extract_short_link_a isalnum isdecimal :
  extract_douyin_id isalnum isdecimal (u "https://v.douyin.com/ABC123/")
  = Ok (u "ABC123").
Proof. reflexivity. Qed.

Example extract_canonical_path isalnum isdecimal :
  extract_douyin_id isalnum isdecimal
    (u "https://www.douyin.com/video/1234567890123456789")
  = Ok (u "1234567890123456789").
Proof. reflexivity. Qed.

Example extract_short_link_b isalnum isdecimal :
  extract_douyin_id isalnum isdecimal (u "http://vm.tiktok.com/ABC123/")
  = Ok (u "ABC123").
Proof. reflexivity. Qed.

(** A link inside share text; the ideographs before and after it are
    word characters, but the slash ends the identifier. *)
Example extract_in_share_text :
  extract_douyin_id cjk_isalnum no_unicode
    ([22797; 21046]%N ++ u " https://v.douyin.com/ABC123/ " ++ [25171; 24320]%N)
  = Ok (u "ABC123").
Proof. reflexivity. Qed.

(** Without the slash the identifier runs on into the ideographs. *)
Example extract_greedy_word_run :
  extract_douyin_id cjk_isalnum no_unicode
    (u "https://v.douyin.com/ABC" ++ [25171; 24320]%N ++ u " x")
  = Ok (u "ABC" ++ [25171; 24320]%N).
Proof. reflexivity. Qed.

(** An earlier-listed pattern wins even when a later one occurs first in
    the text. *)
Example extract_prefers_pattern_order :
  extract_douyin_id no_unicode no_unicode
    (u "https://vm.tiktok.com/ZZZ/ https://v.douyin.com/AAA/")
  = Ok (u "AAA").
Proof. reflexivity. Qed.


Lemma extract_rejects_unmatched_witness :
  extract_douyin_id no_unicode no_unicode (u "https://example.com/video/42")
  = Raise (HTTPException 400 invalid_url_detail).
Proof.
  apply (extract_rejects_unmatched no_unicode no_unicode).
  intros p Hp. apply ReFacts.re_search_None.
  unfold patterns in Hp.
  repeat (apply elem_of_cons in Hp as [->|Hp]; [reflexivity|]).
  by apply elem_of_nil in Hp.
Defined.

(** ** [get_download_urls] *)

Section ResolverFacts.

Variable net : network.

(** [parse_urls] succeeds only on an object whose envelopes are objects
    holding the two nested values, and then returns exactly them. *)
Lemma parse_urls_well_formed d vd md pu video audio :
  d !! u "video_data" = Some (PDict vd) ->
  vd !! u "nwm_video_url" = Some video ->
  d !! u "music_data" = Some (PDict md) ->
  md !! u "play_url" = Some (PDict pu) ->
  pu !! u "uri" = Some audio ->
  parse_urls (PDict d) = Ok (<[u "video" := video]> (<[u "audio" := audio]> ∅)).
Proof.
  intros Hvd Hv Hmd Hpu Ha. unfold parse_urls, rbind, py_in, py_getitem.
  rewrite Hvd, Hmd. simpl. by rewrite Hv, Hpu, Ha.
Qed.

Lemma parse_urls_Ok data urls :
  parse_urls data = Ok urls ->
  exists d vd md pu video audio,
    data = PDict d
    /\ d !! u "video_data" = Some (PDict vd)
    /\ vd !! u "nwm_video_url" = Some video
    /\ d !! u "music_data" = Some (PDict md)
    /\ md !! u "play_url" = Some (PDict pu)
    /\ pu !! u "uri" = Some audio
    /\ urls = <[u "video" := video]> (<[u "audio" := audio]> ∅).
Proof.
  unfold parse_urls, rbind. intros H.
  destruct (py_in (u "video_data") data) as [[|]|] eqn:Hin1; simpl in H;
    try discriminate.
  destruct (py_in (u "music_data") data) as [[|]|] eqn:Hin2; simpl in H;
    try discriminate.
  destruct data as [| | | | |l|d]; simpl in H; try discriminate.
  destruct (d !! u "video_data") as [[| | | | |?|vd]|] eqn:Hvd; simpl in H;
    try discriminate.
  destruct (vd !! u "nwm_video_url") as [video|] eqn:Hv; simpl in H;
    try discriminate.
  destruct (d !! u "music_data") as [[| | | | |?|md]|] eqn:Hmd; simpl in H;
    try discriminate.
  destruct (md !! u "play_url") as [[| | | | |?|pu]|] eqn:Hpu; simpl in H;
    try discriminate.
  destruct (pu !! u "uri") as [audio|] eqn:Ha; simpl in H; try discriminate.
  injection H as <-. by exists d, vd, md, pu, video, audio.
Qed.

Lemma py_in_Raise key v e :
  py_in key v = Raise e -> exists m, e = TypeError m.
Proof. destruct v; simpl; intros [= <-]; by eexists. Qed.

Lemma py_getitem_Raise v key e :
  py_getitem v key = Raise e -> e = KeyError key \/ exists m, e = TypeError m.
Proof.
  destruct v as [| | | | | |d]; simpl; try (intros [= <-]; right; by eexists).
  destruct (d !! key); intros [= <-]. by left.
Qed.

(** The only exceptions that leave the [try] body while parsing. *)
Lemma parse_urls_Raise data e :
  parse_urls data = Raise e ->
  (exists k, e = KeyError k)
  \/ e = ValueError (u "Invalid API response structure")
  \/ (exists m, e = TypeError m).
Proof.
  unfold parse_urls, rbind. intros H.
  destruct (py_in (u "video_data") data) as [has_video|e1] eqn:Hin1.
  2: { injection H as <-. apply py_in_Raise in Hin1. auto. }
  assert (Hget : forall v key e',
             py_getitem v key = Raise e' ->
             (exists k, e' = KeyError k)
             \/ e' = ValueError (u "Invalid API response structure")
             \/ (exists m, e' = TypeError m)).
  { intros v key e' [->|Hm]%py_getitem_Raise; eauto. }
  destruct has_video; simpl in H.
  - destruct (py_in (u "music_data") data) as [has_music|e2] eqn:Hin2.
    2: { injection H as <-. apply py_in_Raise in Hin2. auto. }
    destruct has_music; simpl in H.
    + destruct (py_getitem data (u "video_data")) as [vd|e3] eqn:H1.
      2: { injection H as <-. eauto. }
      destruct (py_getitem vd (u "nwm_video_url")) as [v|e4] eqn:H2.
      2: { injection H as <-. eauto. }
      destruct (py_getitem data (u "music_data")) as [md|e5] eqn:H3.
      2: { injection H as <-. eauto. }
      destruct (py_getitem md (u "play_url")) as [pu|e6] eqn:H4.
      2: { injection H as <-. eauto. }
      destruct (py_getitem pu (u "uri")) as [a|e7] eqn:H5.
      2: { injection H as <-. eauto. }
      discriminate.
    + injection H as <-. auto.
  - injection H as <-. auto.
Qed.

(** The resolver is asked exactly once, whatever the outcome. *)
Lemma get_download_urls_log video_id log :
  (get_download_urls net video_id log).2 = log ++ [resolver_request video_id].
Proof.
  unfold get_download_urls, try_except, bind, lift, requests_get, raise.
  destruct (net log (resolver_request video_id)) as [msg|response]; [done|].
  destruct (raise_for_status response) as [[]|e1]; simpl.
  2: { by destruct e1. }
  destruct (response_json response) as [data|e2]; simpl.
  2: { by destruct e2. }
  destruct (parse_urls data) as [urls|e3]; simpl; [done|by destruct e3].
Qed.

Lemma raise_for_status_Raise response e :
  raise_for_status response = Raise e -> exists m, e = RequestException m.
Proof.
  unfold raise_for_status. intros H.
  repeat case_match; try discriminate; injection H as <-; by eexists.
Qed.

Lemma raise_for_status_Ok response :
  raise_for_status response = Ok tt <->
  (status_code response < 400 \/ 600 <= status_code response).
Proof.
  unfold raise_for_status. repeat case_match; split; try done; lia.
Qed.

Lemma get_download_urls_Ok video_id log urls log' :
  get_download_urls net video_id log = (Ok urls, log') ->
  exists response data,
    net log (resolver_request video_id) = inr response
    /\ raise_for_status response = Ok tt
    /\ json_body response = inr data
    /\ parse_urls data = Ok urls
    /\ log' = log ++ [resolver_request video_id].
Proof.
  intros H. pose proof (get_download_urls_log video_id log) as Hlog.
  rewrite H in Hlog. simpl in Hlog. subst log'.
  revert H.
  unfold get_download_urls, try_except, bind, lift, requests_get, raise.
  destruct (net log (resolver_request video_id)) as [msg|response]; [done|].
  destruct (raise_for_status response) as [[]|e1] eqn:Hst; simpl.
  2: { by destruct e1. }
  unfold response_json.
  destruct (json_body response) as [msg|data] eqn:Hjs; simpl; [done|].
  destruct (parse_urls data) as [urls'|e3] eqn:Hp; simpl.
  - intros [= <-]. by exists response, data.
  - by destruct e3.
Qed.

(** What [get_download_urls] can raise: a 502 [HTTPException] of its
    own, or a [TypeError] from subscripting that none of its [except]
    clauses catches. *)
Lemma get_download_urls_Raise video_id log e log' :
  get_download_urls net video_id log = (Raise e, log') ->
  (exists detail, e = HTTPException 502 detail) \/ (exists m, e = TypeError m).
Proof.
  unfold get_download_urls, try_except, bind, lift, requests_get, raise.
  destruct (net log (resolver_request video_id)) as [msg|response].
  { intros [= <- _]. left. by eexists. }
  destruct (raise_for_status response) as [[]|e1] eqn:Hst; simpl.
  2: { destruct (raise_for_status_Raise _ _ Hst) as [m ->].
       intros [= <- _]. left. by eexists. }
  unfold response_json.
  destruct (json_body response) as [msg|data]; simpl.
  { intros [= <- _]. left. by eexists. }
  destruct (parse_urls data) as [urls'|e3] eqn:Hp; simpl; [done|].
  destruct (parse_urls_Raise _ _ Hp) as [[k ->]|[->|[m ->]]];
    intros [= <- _]; eauto.
Qed.

(** A transport failure, an error status or an undecodable body at the
    resolver is reported as 502. *)
Lemma get_download_urls_transport_failure video_id log :
  (exists msg, net log (resolver_request video_id) = inl msg)
  \/ (exists response e,
        net log (resolver_request video_id) = inr response
        /\ (raise_for_status response = Raise e
            \/ exists msg, json_body response = inl msg)) ->
  exists detail,
    get_download_urls net video_id log
    = (Raise (HTTPException 502 (u "API request failed: " ++ detail)),
       log ++ [resolver_request video_id]).
Proof.
  unfold get_download_urls, try_except, bind, lift, requests_get, raise.
  intros [[msg ->]|(response & e & -> & [Hst|[msg Hjs]])].
  - by eexists.
  - rewrite Hst. destruct (raise_for_status_Raise _ _ Hst) as [m ->]. by eexists.
  - destruct (raise_for_status response) as [[]|e1] eqn:Hst; simpl.
    + unfold response_json. rewrite Hjs. by eexists.
    + destruct (raise_for_status_Raise _ _ Hst) as [m ->]. by eexists.
Qed.

End ResolverFacts.

Section ResolverClaims.

Variable net : network.

Lemma parse_urls_missing data :
  missing_field data ->
  exists e, parse_urls data = Raise e
            /\ ((exists k, e = KeyError k)
                \/ e = ValueError (u "Invalid API response structure")).
Proof.
  intros Hmiss. unfold parse_urls, rbind, py_in, py_getitem.
  destruct Hmiss as [d Hv|d Hm|d vd Hv Hn|d vd md Hv Hm Hp|d vd md pu Hv Hm Hp Hu].
  - rewrite Hv. simpl. eauto.
  - rewrite Hm. destruct (d !! u "video_data"); simpl; eauto.
  - rewrite Hv, Hn. destruct (d !! u "music_data"); simpl; eauto.
  - rewrite Hv, Hm, Hp. simpl.
    destruct (vd !! u "nwm_video_url"); eauto.
  - rewrite Hv, Hm, Hp, Hu. simpl.
    destruct (vd !! u "nwm_video_url"); eauto.
Qed.

Lemma get_download_urls_parsed video_id log data :
  resolver_answers net video_id log data ->
  get_download_urls net video_id log
  = (match parse_urls data with
     | Ok urls => Ok urls
     | Raise (KeyError k) =>
         Raise (HTTPException 502
                  (u "API response error: " ++ str_of_exn (KeyError k)))
     | Raise (ValueError m) =>
         Raise (HTTPException 502 (u "API response error: " ++ m))
     | Raise (RequestException m) | Raise (JSONDecodeError m) =>
         Raise (HTTPException 502 (u "API request failed: " ++ m))
     | Raise e => Raise e
     end, log ++ [resolver_request video_id]).
Proof.
  intros (response & Hnet & Hst & Hjs).
  unfold get_download_urls, try_except, bind, lift, requests_get, raise,
    response_json.
  rewrite Hnet, Hst, Hjs. simpl.
  destruct (parse_urls data) as [urls|[]]; reflexivity.
Qed.

(** C2, in the form the code satisfies: [get_download_urls] raises
    [HTTPException] 502 with an "API response error" detail, and so
    returns nothing, when the decoded response is an object and
    - [video_data] or [music_data] is missing from it, or
    - [video_data] is an object and [nwm_video_url] is missing from it, or
    - [video_data] and [music_data] are objects and [play_url] is missing
      from [music_data], or
    - they are objects, [play_url] is an object and [uri] is missing from
      it
    (this is [missing_field]). Any result it does return has both
    entries; and values that are present are returned as they are,
    whatever they are: there is no emptiness check. *)
Theorem resolve_missing_field_502 video_id log data :
  resolver_answers net video_id log data ->
  (missing_field data ->
   exists detail,
     get_download_urls net video_id log
     = (Raise (HTTPException 502 (u "API response error: " ++ detail)),
        log ++ [resolver_request video_id]))
  /\ (forall urls log',
        get_download_urls net video_id log = (Ok urls, log') ->
        is_Some (urls !! u "video") /\ is_Some (urls !! u "audio"))
  /\ (forall video audio,
        data = resolver_json video audio ->
        get_download_urls net video_id log
        = (Ok (<[u "video" := video]> (<[u "audio" := audio]> ∅)),
           log ++ [resolver_request video_id])).
Proof.
  intros Hans. rewrite (get_download_urls_parsed _ _ _ Hans).
  split; [|split].
  - intros Hmiss.
    destruct (parse_urls_missing _ Hmiss) as (e & -> & [[k ->]| ->]); by eexists.
  - intros urls log' H.
    destruct (parse_urls data) as [urls'|e] eqn:Hp; [|by destruct e].
    injection H as <- _.
    destruct (parse_urls_Ok _ _ Hp) as (?&?&?&?&v&a&_&_&_&_&_&_& ->).
    split; [by rewrite lookup_insert_eq|].
    rewrite lookup_insert_ne by done. by rewrite lookup_insert_eq.
  - intros video audio ->. unfold resolver_json, json_object.
    by erewrite parse_urls_well_formed.
Qed.

(** C3: when the decoded response holds both top-level keys with
    well-formed nested fields, [get_download_urls] returns the dict
    whose [video] entry is the nested [nwm_video_url] value and whose
    [audio] entry is the nested [play_url.uri] value, unchanged. *)
Theorem resolve_returns_nested_urls video_id log d vd md pu video audio :
  resolver_answers net video_id log (PDict d) ->
  d !! u "video_data" = Some (PDict vd) ->
  vd !! u "nwm_video_url" = Some video ->
  d !! u "music_data" = Some (PDict md) ->
  md !! u "play_url" = Some (PDict pu) ->
  pu !! u "uri" = Some audio ->
  exists urls,
    get_download_urls net video_id log
    = (Ok urls, log ++ [resolver_request video_id])
    /\ urls !! u "video" = Some video
    /\ urls !! u "audio" = Some audio
    /\ dom urls = {[u "video"; u "audio"]}.
Proof.
  intros Hans Hvd Hv Hmd Hpu Ha.
  rewrite (get_download_urls_parsed _ _ _ Hans).
  rewrite (parse_urls_well_formed _ _ _ _ _ _ Hvd Hv Hmd Hpu Ha).
  eexists. split; [done|]. split; [|split].
  - by rewrite lookup_insert_eq.
  - rewrite lookup_insert_ne by done. by rewrite lookup_insert_eq.
  - rewrite !dom_insert_L, dom_empty_L. set_solver.
Qed.

End ResolverClaims.

(** C2 as stated fails: with both URLs present but empty the resolver
    result is returned all the same; nothing rejects the empty string. *)
Lemma resolve_accepts_empty_url :
  (exists urls,
      get_download_urls net_empty_urls (u "ABC123") []
      = (Ok urls, [resolver_request (u "ABC123")])
      /\ urls !! u "video" = Some (PStr [])
      /\ urls !! u "audio" = Some (PStr []))
  /\ ~ (exists e log',
           get_download_urls net_empty_urls (u "ABC123") [] = (Raise e, log')).
Proof.
  assert (H : get_download_urls net_empty_urls (u "ABC123") []
              = (Ok (<[u "video" := PStr []]> (<[u "audio" := PStr []]> ∅)),
                 [] ++ [resolver_request (u "ABC123")])).
  { vm_compute. reflexivity. }
  split.
  - eexists. split; [exact H|]. split; reflexivity.
  - intros (e & log' & He). rewrite H in He. discriminate.
Qed.

Lemma resolve_missing_field_502_witness :
  exists detail,
    get_download_urls net_missing_uri (u "ABC123") []
    = (Raise (HTTPException 502 (u "API response error: " ++ detail)),
       [] ++ [resolver_request (u "ABC123")]).
Proof.
  eapply (resolve_missing_field_502 net_missing_uri (u "ABC123") []).
  - eexists. repeat split; reflexivity.
  - eapply missing_uri; reflexivity.
Defined.

Lemma resolve_returns_nested_urls_witness :
  exists urls,
    get_download_urls net_ok (u "ABC123") []
    = (Ok urls, [] ++ [resolver_request (u "ABC123")])
    /\ urls !! u "video" = Some (PStr (u "https://cdn.example/v.mp4"))
    /\ urls !! u "audio" = Some (PStr (u "https://cdn.example/a.mp3"))
    /\ dom urls = {[u "video"; u "audio"]}.
Proof.
  eapply (resolve_returns_nested_urls net_ok (u "ABC123") []).
  - eexists. repeat split; reflexivity.
  - reflexivity.
  - reflexivity.
  - reflexivity.
  - reflexivity.
  - reflexivity.
Defined.

(** ** The [/download] handler *)

Section DownloadFacts.

Variable unicode_isalnum : char -> bool.
Variable unicode_isdecimal : char -> bool.
Variable net : network.

Abbreviation extract := (extract_douyin_id unicode_isalnum unicode_isdecimal).
Abbreviation download :=
  (download_douyin unicode_isalnum unicode_isdecimal net).

(** The handler, stage by stage. *)
Lemma download_douyin_stages url media_type log :
  download url media_type log =
  match extract url with
  | Raise e => (Raise (download_except e), log)
  | Ok video_id =>
      match get_download_urls net video_id log with
      | (Raise e, log1) => (Raise (download_except e), log1)
      | (Ok download_urls, log1) =>
          match download_urls !! media_type with
          | None => (Raise (HTTPException 400 invalid_media_type_detail), log1)
          | Some media_url =>
              match net log1 (media_request media_url) with
              | inl msg =>
                  (Raise (HTTPException 504 (u "Download failed: " ++ msg)),
                   log1 ++ [media_request media_url])
              | inr response =>
                  match raise_for_status response with
                  | Raise e =>
                      (Raise (download_except e), log1 ++ [media_request media_url])
                  | Ok _ =>
                      match latin1_encode
                              (content_disposition media_type video_id) with
                      | Raise e =>
                          (Raise (download_except e),
                           log1 ++ [media_request media_url])
                      | Ok _ =>
                          (Ok {| body_iterator :=
                                   iter_content (Z.to_nat CHUNK_SIZE) response;
                                 media_type_header :=
                                   (if is_video media_type then u "video/mp4"
                                    else u "audio/mpeg");
                                 headers :=
                                   {[ u "Content-Disposition" :=
                                        content_disposition media_type video_id ]} |},
                           log1 ++ [media_request media_url])
                      end
                  end
              end
          end
      end
  end.
Proof.
  unfold download_douyin, try_except, bind, lift,
    raise, ret, requests_get, dict_getitem, new_StreamingResponse, rbind.
  destruct (extract url) as [video_id|e]; [|done].
  destruct (get_download_urls net video_id log) as [[download_urls|e] log1];
    [|done].
  destruct (download_urls !! media_type) as [media_url|] eqn:Hmt; simpl.
  2: done.
  destruct (net log1 (media_request media_url)) as [msg|response]; [done|].
  destruct (raise_for_status response) as [[]|e]; [|done].
  by destruct (latin1_encode (content_disposition media_type video_id))
    as [[]|e].
Qed.

(** The dict [get_download_urls] returns has the two keys ["video"] and
    ["audio"] and no other. *)
Lemma download_urls_keys video_id log urls log' media_type :
  get_download_urls net video_id log = (Ok urls, log') ->
  is_Some (urls !! media_type) <->
  media_type = u "video" \/ media_type = u "audio".
Proof.
  intros (response & data & _ & _ & _ & Hp & _)%get_download_urls_Ok.
  destruct (parse_urls_Ok _ _ Hp) as (?&?&?&?&v&a&_&_&_&_&_&_& ->).
  split.
  - intros [mu Hx].
    destruct (decide (media_type = u "video")) as [|Hv]; [by left|]. right.
    destruct (decide (media_type = u "audio")) as [|Ha]; [done|].
    rewrite !lookup_insert_ne, lookup_empty in Hx by done. discriminate.
  - intros [-> | ->].
    + rewrite lookup_insert_eq. by eexists.
    + rewrite lookup_insert_ne by done. rewrite lookup_insert_eq. by eexists.
Qed.

(** Every failure of the handler leaves as an [HTTPException]. *)
Lemma download_except_status e :
  exists status detail, download_except e = HTTPException status detail.
Proof. destruct e; by eexists _, _. Qed.

Lemma media_fetch_failure_504 url media_type log video_id urls log1 media_url :
  extract url = Ok video_id ->
  get_download_urls net video_id log = (Ok urls, log1) ->
  urls !! media_type = Some media_url ->
  media_fetch_fails net log1 media_url ->
  exists detail,
    download url media_type log
    = (Raise (HTTPException 504 (u "Download failed: " ++ detail)),
       log1 ++ [media_request media_url]).
Proof.
  intros Hid Hurls Hmt Hfail. rewrite download_douyin_stages, Hid, Hurls, Hmt.
  unfold media_fetch_fails in Hfail.
  destruct (net log1 (media_request media_url)) as [msg|response]; [by eexists|].
  destruct Hfail as [e He]. rewrite He.
  destruct (raise_for_status_Raise _ _ He) as [m ->]. by eexists.
Qed.

(** A failure of the resolution stage leaves with the status
    [get_download_urls] gave it, 502, unless it is the uncaught
    [TypeError], which the catch-all clause turns into a 500. *)
Lemma resolution_failure_status url media_type log video_id e log1 :
  extract url = Ok video_id ->
  get_download_urls net video_id log = (Raise e, log1) ->
  (exists detail,
      e = HTTPException 502 detail
      /\ download url media_type log = (Raise e, log1))
  \/ (exists m,
        e = TypeError m
        /\ download url media_type log
           = (Raise (HTTPException 500 (u "Unexpected error: " ++ m)), log1)).
Proof.
  intros Hid Hurls. rewrite download_douyin_stages, Hid, Hurls.
  destruct (get_download_urls_Raise _ _ _ _ _ Hurls) as [[d ->]|[m ->]]; eauto.
Qed.

Lemma extract_Raise url e :
  extract url = Raise e -> e = HTTPException 400 invalid_url_detail.
Proof.
  unfold extract_douyin_id. destruct (first_match _ _ _ _); by intros [= <-].
Qed.

(** C1, in the form the code satisfies: with a [media_type] that is neither ["video"] nor
    ["audio"] the handler always fails and never sends a request to a
    media host. The check comes after extraction and resolution: for an
    unsupported URL nothing is sent at all, otherwise exactly one
    request, the resolver's, is sent; and when the resolver succeeds the
    failure is the 400 whose detail names ['video'] and ['audio']. *)
Theorem download_rejects_unknown_media_type url media_type log :
  media_type <> u "video" -> media_type <> u "audio" ->
  exists status detail log',
    download url media_type log = (Raise (HTTPException status detail), log')
    /\ ((exists e, extract url = Raise e) /\ status = 400 /\ log' = log
        \/ exists video_id,
             extract url = Ok video_id
             /\ log' = log ++ [resolver_request video_id]
             /\ (status = 400 \/ status = 502 \/ status = 500))
    /\ (forall video_id urls log1,
          extract url = Ok video_id ->
          get_download_urls net video_id log = (Ok urls, log1) ->
          status = 400 /\ detail = invalid_media_type_detail)
    /\ str_contains (u "'video'") invalid_media_type_detail = true
    /\ str_contains (u "'audio'") invalid_media_type_detail = true.
Proof.
  intros Hv Ha. rewrite download_douyin_stages.
  destruct (extract url) as [video_id|e] eqn:Hid.
  - pose proof (get_download_urls_log net video_id log) as Hlog.
    destruct (get_download_urls net video_id log) as [[urls|e] log1] eqn:Hurls;
      simpl in Hlog; subst log1.
    + assert (Hnone : urls !! media_type = None).
      { apply eq_None_not_Some.
        rewrite (download_urls_keys _ _ _ _ media_type Hurls). tauto. }
      rewrite Hnone. eexists _, _, _. split; [done|].
      split; [right; exists video_id; auto|].
      split; [done|]. split; reflexivity.
    + destruct (get_download_urls_Raise _ _ _ _ _ Hurls) as [[d ->]|[m ->]];
        simpl; eexists _, _, _; (split; [done|]);
        (split; [right; exists video_id; auto|]);
        (split; [intros ? ? ? [= <-]; congruence|]); split; reflexivity.
  - apply extract_Raise in Hid as ->. simpl. eexists _, _, _. split; [done|].
    split; [left; eauto|]. split; [discriminate|]. split; reflexivity.
Qed.

(** C7, in the form the code satisfies: a successful download response has content type
    [video/mp4] for ["video"] and [audio/mpeg] for ["audio"], and its
    only header is [Content-Disposition], whose value is
    [attachment; filename=douyin_{media_type}_{video_id}] followed by
    [.mp4] for video and [.mp3] for audio. *)
Theorem download_response_headers url media_type log sr log' :
  download url media_type log = (Ok sr, log') ->
  exists video_id,
    extract url = Ok video_id
    /\ headers sr
       = {[ u "Content-Disposition" :=
              u "attachment; filename=douyin_" ++ media_type ++ u "_" ++ video_id
              ++ (if bool_decide (media_type = u "video") then u ".mp4"
                  else u ".mp3") ]}
    /\ (media_type = u "video" /\ media_type_header sr = u "video/mp4"
        \/ media_type = u "audio" /\ media_type_header sr = u "audio/mpeg").
Proof.
  rewrite download_douyin_stages.
  destruct (extract url) as [video_id|e] eqn:Hid; [|done].
  destruct (get_download_urls net video_id log) as [[urls|e] log1] eqn:Hurls;
    [|done].
  destruct (urls !! media_type) as [media_url|] eqn:Hmt; [|done].
  destruct (net log1 (media_request media_url)) as [msg|response]; [done|].
  destruct (raise_for_status response) as [[]|e]; [|done].
  destruct (latin1_encode (content_disposition media_type video_id))
    as [[]|e]; [|done].
  intros [= <- _]. exists video_id. split; [done|]. split; [done|]. simpl.
  assert (Hkey : is_Some (urls !! media_type)) by by eexists.
  apply (download_urls_keys _ _ _ _ _ Hurls) in Hkey as [-> | ->]; auto.
Qed.

(** C10: for every identifier that extraction yields, whichever pattern
    produced it, the handler's first outbound request is the one request
    [get_download_urls] sends, and its URL is the identifier appended to
    the fixed text
    [https://api.douyin.wtf/api?url=https://www.douyin.com/video/];
    the only request that may follow is the media fetch. *)
Theorem resolver_request_is_canonical url video_id log :
  extract url = Ok video_id ->
  (exists r,
      get_download_urls net video_id log
      = (r, log ++ [resolver_request video_id]))
  /\ req_url (resolver_request video_id)
     = PStr (u "https://api.douyin.wtf/api?url=https://www.douyin.com/video/"
             ++ video_id)
  /\ (forall media_type, exists rest,
        (download url media_type log).2
        = log ++ resolver_request video_id :: rest
        /\ (rest = [] \/ exists media_url, rest = [media_request media_url]))
  /\ (forall url' media_type,
        extract url' = Ok video_id ->
        (download url' media_type log).2 !! length log
        = (download url media_type log).2 !! length log).
Proof.
  intros Hid.
  assert (Hlog : forall u0 media_type,
             extract u0 = Ok video_id ->
             exists rest,
               (download u0 media_type log).2
               = log ++ resolver_request video_id :: rest
               /\ (rest = [] \/ exists media_url, rest = [media_request media_url])).
  { intros u0 media_type Hu0. rewrite download_douyin_stages, Hu0.
    pose proof (get_download_urls_log net video_id log) as Hlog.
    destruct (get_download_urls net video_id log) as [[urls|e] log1];
      simpl in Hlog; subst log1; [|exists []; auto].
    destruct (urls !! media_type) as [media_url|]; [|exists []; auto].
    exists [media_request media_url]. split; [|eauto].
    destruct (net _ _) as [msg|response]; simpl; [by rewrite <- app_assoc|].
    destruct (raise_for_status response) as [[]|e]; simpl;
      [|by rewrite <- app_assoc].
    destruct (latin1_encode (content_disposition media_type video_id))
      as [[]|e]; simpl; by rewrite <- app_assoc. }
  split; [|split; [done|split]].
  - pose proof (get_download_urls_log net video_id log) as H.
    destruct (get_download_urls net video_id log) as [r log1].
    simpl in H. subst. by exists r.
  - intros media_type. by apply Hlog.
  - intros url' media_type Hid'.
    destruct (Hlog url' media_type Hid') as (rest' & -> & _).
    destruct (Hlog url media_type Hid) as (rest & -> & _).
    by rewrite !list_lookup_middle.
Qed.

End DownloadFacts.

(** ** Streaming *)

Lemma cut_pieces_concat n raw :
  (0 < n)%nat -> List.concat (cut_pieces n raw) = raw.
Proof.
  funelim (cut_pieces n raw); intros Hn; simp cut_pieces; [lia|done|].
  rewrite concat_cons.
  match goal with IH : _ -> List.concat _ = _ |- _ => rewrite IH by lia end.
  apply take_drop.
Qed.

Lemma cut_pieces_chunks n raw :
  Forall (fun chunk => chunk <> [] /\ (length chunk <= n)%nat) (cut_pieces n raw).
Proof.
  funelim (cut_pieces n raw); simp cut_pieces; [constructor..|].
  constructor; [|done]. split; [done|]. rewrite length_take. lia.
Qed.

(** All pieces but the last are full blocks. *)
Lemma cut_pieces_full_blocks n raw i chunk :
  cut_pieces n raw !! i = Some chunk ->
  (S i < length (cut_pieces n raw))%nat ->
  length chunk = n.
Proof.
  revert i. funelim (cut_pieces n raw); intros i; simp cut_pieces;
    [done|done|].
  destruct i as [|i]; simpl.
  - intros [= <-] Hlen. cbn [length]. rewrite length_take.
    destruct (decide (n <= length raw)%nat) as [|Hshort]; [lia|].
    rewrite drop_ge in Hlen by lia. simp cut_pieces in Hlen.
    simpl in Hlen. lia.
  - intros Hi Hlen. apply (H chunk i Hi). simpl in *. lia.
Qed.

(** A body that fits into one read comes as one piece. *)
Lemma cut_pieces_small n raw :
  raw <> [] -> (length raw <= n)%nat -> cut_pieces n raw = [raw].
Proof.
  intros Hne Hlen. destruct raw as [|b raw]; [done|].
  destruct n as [|n]; [simpl in Hlen; lia|]. simp cut_pieces.
  rewrite take_ge, drop_ge by done. by simp cut_pieces.
Qed.

(** The first read of a longer body returns a full block. *)
Lemma cut_pieces_step n raw :
  (0 < n)%nat -> raw <> [] ->
  cut_pieces n raw = take n raw :: cut_pieces n (drop n raw).
Proof.
  intros Hn Hne. destruct raw as [|b raw]; [done|].
  destruct n as [|n]; [lia|]. by simp cut_pieces.
Qed.

Lemma cut_payloads_chunks n payloads :
  Forall (fun chunk => chunk <> [] /\ (length chunk <= n)%nat)
    (List.concat (List.map (cut_pieces n) payloads)).
Proof.
  induction payloads as [|p ps IH]; simpl; [constructor|].
  apply Forall_app. split; [apply cut_pieces_chunks|done].
Qed.

Lemma cut_payloads_concat n payloads :
  (0 < n)%nat ->
  List.concat (List.concat (List.map (cut_pieces n) payloads))
  = List.concat payloads.
Proof.
  intros Hn. induction payloads as [|p ps IH]; simpl; [done|].
  by rewrite concat_app, cut_pieces_concat, IH.
Qed.

(** Without a content encoding the pieces are bounded by the chunk size
    and put together they are the body as sent, whatever the framing. *)
Lemma iter_content_unencoded n response :
  (0 < n)%nat -> content_encoding response = None ->
  Forall (fun chunk => chunk <> [] /\ (length chunk <= n)%nat)
    (iter_content n response)
  /\ List.concat (iter_content n response) = wire_body response.
Proof.
  intros Hn Hnone. unfold iter_content, wire_body. rewrite Hnone.
  destruct (body response) as [raw|payloads].
  - split; [apply cut_pieces_chunks|by apply cut_pieces_concat].
  - split; [apply cut_payloads_chunks|by apply cut_payloads_concat].
Qed.

(** A run of [/download] on a world whose resolver is the sample one and
    whose media host answers [response]. *)
Lemma sample_download response :
  raise_for_status response = Ok tt ->
  download_douyin no_unicode no_unicode
    (fun log r => if req_stream r then inr response else net_ok log r)
    (u "https://v.douyin.com/ABC123/") (u "video") []
  = (Ok {| body_iterator := iter_content (Z.to_nat CHUNK_SIZE) response;
           media_type_header := u "video/mp4";
           headers :=
             {[ u "Content-Disposition" :=
                  u "attachment; filename=douyin_video_ABC123.mp4" ]} |},
     [resolver_request (u "ABC123");
      media_request (PStr (u "https://cdn.example/v.mp4"))]).
Proof.
  intros Hst. rewrite download_douyin_stages.
  change (extract_douyin_id no_unicode no_unicode (u "https://v.douyin.com/ABC123/"))
    with (Ok (A := str) (u "ABC123")).
  cbv beta iota.
  assert (Hres : get_download_urls
                   (fun log r => if req_stream r then inr response else net_ok log r)
                   (u "ABC123") []
                 = (Ok (<[u "video" := PStr (u "https://cdn.example/v.mp4")]>
                          (<[u "audio" := PStr (u "https://cdn.example/a.mp3")]> ∅)),
                    [] ++ [resolver_request (u "ABC123")])).
  { rewrite (get_download_urls_parsed _ _ _
               (resolver_json (PStr (u "https://cdn.example/v.mp4"))
                              (PStr (u "https://cdn.example/a.mp3"))));
      [|eexists; repeat split; reflexivity].
    unfold resolver_json, json_object. by erewrite parse_urls_well_formed. }
  rewrite Hres. rewrite lookup_insert_eq.
  change (req_stream (media_request (PStr (u "https://cdn.example/v.mp4"))))
    with true.
  cbv beta iota. rewrite Hst.
  change (latin1_encode (content_disposition (u "video") (u "ABC123")))
    with (Ok tt).
  reflexivity.
Qed.

Section Streaming.

Variable unicode_isalnum : char -> bool.
Variable unicode_isdecimal : char -> bool.
Variable net : network.

(** C8, in the form the code satisfies: when the media response carries
    no content encoding, the body of a successful download is the body
    of the media response, as it was sent, cut into chunks: every chunk
    is non-empty and at most 1024 * 1024 bytes long, and the chunks
    concatenated are the source body, so the byte counts agree. *)
Theorem download_relays_body_in_chunks url media_type log sr log' :
  download_douyin unicode_isalnum unicode_isdecimal net url media_type log
  = (Ok sr, log') ->
  exists log1 media_url response,
    net log1 (media_request media_url) = inr response
    /\ log' = log1 ++ [media_request media_url]
    /\ (content_encoding response = None ->
        List.concat (body_iterator sr) = wire_body response
        /\ Forall (fun chunk => chunk <> []
                                /\ Z.of_nat (length chunk) <= 1024 * 1024)
             (body_iterator sr)
        /\ length (List.concat (body_iterator sr))
           = length (wire_body response)).
Proof.
  rewrite download_douyin_stages.
  destruct (extract_douyin_id _ _ url) as [video_id|e]; [|done].
  destruct (get_download_urls net video_id log) as [[urls|e] log1]; [|done].
  destruct (urls !! media_type) as [media_url|]; [|done].
  destruct (net log1 (media_request media_url)) as [msg|response] eqn:Hnet;
    [done|].
  destruct (raise_for_status response) as [[]|e]; [|done].
  destruct (latin1_encode (content_disposition media_type video_id))
    as [[]|e]; [|done].
  intros [= <- <-]. exists log1, media_url, response. simpl.
  assert (Hpos : (0 < Z.to_nat CHUNK_SIZE)%nat) by (unfold CHUNK_SIZE; lia).
  split; [done|]. split; [done|]. intros Hnone.
  destruct (iter_content_unencoded _ _ Hpos Hnone) as [Hchunks Hcat].
  rewrite Hcat. split; [done|]. split; [|done].
  eapply Forall_impl; [exact Hchunks|].
  intros chunk [Hne Hlen]. split; [done|].
  unfold CHUNK_SIZE in Hlen. lia.
Qed.

End Streaming.

(** ** Runs of the handler on the sample worlds *)

(** C1 as stated fails: with a valid link and a working resolver,
    [media_type=bogus] is refused only after the resolver has been
    called. *)
Lemma bogus_media_type_calls_resolver :
  u "bogus" <> u "video" /\ u "bogus" <> u "audio"
  /\ download_douyin no_unicode no_unicode net_ok
       (u "https://v.douyin.com/ABC123/") (u "bogus") []
     = (Raise (HTTPException 400 invalid_media_type_detail),
        [resolver_request (u "ABC123")])
  /\ ~ (exists detail,
           download_douyin no_unicode no_unicode net_ok
             (u "https://v.douyin.com/ABC123/") (u "bogus") []
           = (Raise (HTTPException 400 detail), [])).
Proof.
  assert (H : download_douyin no_unicode no_unicode net_ok
                (u "https://v.douyin.com/ABC123/") (u "bogus") []
              = (Raise (HTTPException 400 invalid_media_type_detail),
                 [resolver_request (u "ABC123")])).
  { vm_compute. reflexivity. }
  split; [discriminate|]. split; [discriminate|]. split; [exact H|].
  intros [detail Hd]. rewrite H in Hd. discriminate.
Qed.

(** When the resolver is unreachable the same request fails with 502:
    the media type has not been looked at yet. *)
Example bogus_media_type_resolver_down :
  download_douyin no_unicode no_unicode net_down
    (u "https://v.douyin.com/ABC123/") (u "bogus") []
  = (Raise (HTTPException 502 (u "API request failed: Connection refused")),
     [resolver_request (u "ABC123")]).
Proof. vm_compute. reflexivity. Qed.

Lemma download_rejects_unknown_media_type_witness :
  exists status detail log',
    download_douyin no_unicode no_unicode net_ok
      (u "https://v.douyin.com/ABC123/") (u "bogus") []
    = (Raise (HTTPException status detail), log').
Proof.
  destruct (download_rejects_unknown_media_type no_unicode no_unicode net_ok
              (u "https://v.douyin.com/ABC123/") (u "bogus") [])
    as (status & detail & log' & H & _).
  - discriminate.
  - discriminate.
  - by exists status, detail, log'.
Defined.

(** C7 as stated fails: the file name that is sent starts with
    [douyin_]. *)
Lemma download_filename_has_prefix :
  exists sr log',
    download_douyin no_unicode no_unicode net_ok
      (u "https://v.douyin.com/ABC123/") (u "video") []
    = (Ok sr, log')
    /\ headers sr !! u "Content-Disposition"
       = Some (u "attachment; filename=douyin_video_ABC123.mp4")
    /\ headers sr !! u "Content-Disposition"
       <> Some (u "attachment; filename=" ++ u "video" ++ u "_" ++ u "ABC123"
                ++ u ".mp4").
Proof.
  eexists _, _. split; [vm_compute; reflexivity|].
  split; [vm_compute; reflexivity|]. vm_compute. discriminate.
Qed.

Lemma successful_video_download :
  exists sr,
    download_douyin no_unicode no_unicode net_ok
      (u "https://v.douyin.com/ABC123/") (u "video") []
    = (Ok sr,
       [resolver_request (u "ABC123");
        media_request (PStr (u "https://cdn.example/v.mp4"))]).
Proof. eexists. vm_compute. reflexivity. Qed.

Lemma download_response_headers_witness :
  exists sr,
    headers sr
    = {[ u "Content-Disposition" :=
           u "attachment; filename=douyin_" ++ u "audio" ++ u "_" ++ u "ABC123"
           ++ u ".mp3" ]}
    /\ media_type_header sr = u "audio/mpeg".
Proof.
  assert (Hrun : exists sr log',
             download_douyin no_unicode no_unicode net_ok
               (u "https://v.douyin.com/ABC123/") (u "audio") []
             = (Ok sr, log')).
  { eexists _, _. vm_compute. reflexivity. }
  destruct Hrun as (sr & log' & Hrun).
  destruct (download_response_headers no_unicode no_unicode net_ok
              _ _ _ _ _ Hrun) as (video_id & Hid & Hhdr & Hct).
  exists sr. split.
  - rewrite Hhdr. injection Hid as <-. reflexivity.
  - destruct Hct as [[Hv _]|[_ Hct]]; [discriminate|done].
Defined.

(** A body longer than the bound cannot come in fewer than two bounded
    chunks. *)
Lemma bounded_chunks_at_least_two (chunks : list bytes) (whole : bytes) :
  List.concat chunks = whole ->
  Forall (fun chunk => chunk <> [] /\ Z.of_nat (length chunk) <= 1024 * 1024)
    chunks ->
  1024 * 1024 < Z.of_nat (length whole) ->
  (2 <= length chunks)%nat.
Proof.
  intros <- Hchunks Hbig.
  destruct Hchunks as [|c1 rest [_ H1] Hrest]; [simpl in Hbig; lia|].
  destruct Hrest as [|c2 rest' _ _]; [|simpl; lia].
  simpl in Hbig. rewrite length_app in Hbig. simpl in Hbig. lia.
Qed.

Lemma download_relays_body_in_chunks_witness :
  exists sr,
    List.concat (body_iterator sr) = big_body
    /\ Forall (fun chunk => chunk <> []
                            /\ Z.of_nat (length chunk) <= 1024 * 1024)
         (body_iterator sr)
    /\ (2 <= length (body_iterator sr))%nat.
Proof.
  assert (Hrun := sample_download big_response eq_refl).
  destruct (download_relays_body_in_chunks no_unicode no_unicode net_big_body
              _ _ _ _ _ Hrun)
    as (log1 & media_url & response & Hnet & _ & Hprops).
  assert (Hmedia : net_big_body log1 (media_request media_url) = inr big_response)
    by reflexivity.
  rewrite Hmedia in Hnet. injection Hnet as <-.
  assert (Hnone : content_encoding big_response = None) by reflexivity.
  destruct (Hprops Hnone) as (Hcat & Hchunks & _).
  assert (Hwire : wire_body big_response = big_body) by reflexivity.
  rewrite Hwire in Hcat.
  eexists. split; [exact Hcat|]. split; [exact Hchunks|].
  apply (bounded_chunks_at_least_two _ big_body Hcat Hchunks).
  unfold big_body. rewrite length_replicate, Nat2Z.inj_add, Z2Nat.id.
  - unfold CHUNK_SIZE. lia.
  - unfold CHUNK_SIZE. lia.
Defined.

(** C8 as stated fails: a chunked response with [Content-Encoding: gzip]
    is relayed decoded, piece by piece, and the one piece of this
    response decodes to 1 MiB and one byte. *)
Lemma gzip_chunk_exceeds_one_mebibyte :
  exists sr log',
    download_douyin no_unicode no_unicode net_gzip_chunked
      (u "https://v.douyin.com/ABC123/") (u "video") []
    = (Ok sr, log')
    /\ body_iterator sr = [big_zeros]
    /\ Z.of_nat (length big_zeros) = 1024 * 1024 + 1
    /\ ~ Forall (fun chunk => Z.of_nat (length chunk) <= 1024 * 1024)
           (body_iterator sr).
Proof.
  assert (Hlen : length gzip_of_zeros = 1051%nat).
  { unfold gzip_of_zeros. by rewrite !length_app, length_replicate. }
  assert (Hbig : Z.of_nat (length big_zeros) = 1024 * 1024 + 1).
  { unfold big_zeros. rewrite length_replicate, Nat2Z.inj_succ, Z2Nat.id; [done|].
    unfold CHUNK_SIZE. lia. }
  assert (Hpieces : iter_content (Z.to_nat CHUNK_SIZE) gzip_response = [big_zeros]).
  { unfold iter_content, gzip_response.
    cbn [body content_encoding].
    assert (Hcut : cut_pieces (Z.to_nat CHUNK_SIZE) gzip_of_zeros = [gzip_of_zeros]).
    { apply cut_pieces_small.
      - intros Hnil. rewrite Hnil in Hlen. discriminate.
      - rewrite Hlen. unfold CHUNK_SIZE. lia. }
    assert (Hterm : until_terminator [gzip_of_zeros; []] = [gzip_of_zeros]).
    { cbn [until_terminator]. destruct gzip_of_zeros; [discriminate|done]. }
    rewrite Hterm. cbn [List.map List.concat]. rewrite Hcut, app_nil_r.
    cbn [decode_pieces decompress flush gunzip_zeros].
    assert (Heq : bytes_eqb gzip_of_zeros gzip_of_zeros = true)
      by (vm_compute; reflexivity).
    rewrite Heq.
    destruct big_zeros as [|z zs] eqn:Hz; [discriminate Hbig|]. reflexivity. }
  eexists _, _. split; [exact (sample_download gzip_response eq_refl)|].
  cbn [body_iterator]. split; [exact Hpieces|]. split; [exact Hbig|].
  rewrite Hpieces. intros Hall. apply Forall_inv in Hall. lia.
Qed.

(** A chunked response without content encoding comes piece by piece as
    it was framed. *)
Example chunked_body_pieces :
  iter_content (Z.to_nat CHUNK_SIZE) chunked_response
  = [ [Byte.x00; Byte.x01; Byte.x02];
      [Byte.x03; Byte.x04; Byte.x05];
      [Byte.x06; Byte.x07; Byte.x08; Byte.x09] ].
Proof.
  assert (Hsmall : forall raw : bytes,
             raw <> [] -> (length raw <= 4)%nat ->
             cut_pieces (Z.to_nat CHUNK_SIZE) raw = [raw]).
  { intros raw Hne Hlen. apply cut_pieces_small; [done|].
    unfold CHUNK_SIZE. lia. }
  unfold iter_content, chunked_response.
  cbn [body content_encoding until_terminator List.map List.concat].
  rewrite !Hsmall by (done || simpl; lia). reflexivity.
Qed.

(** A link of the third shape is resolved through the same template. *)
Lemma resolver_request_is_canonical_witness :
  exists r,
    get_download_urls net_ok (u "ZM8abc") []
    = (r, [] ++ [resolver_request (u "ZM8abc")])
    /\ req_url (resolver_request (u "ZM8abc"))
       = PStr (u "https://api.douyin.wtf/api?url=https://www.douyin.com/video/ZM8abc").
Proof.
  destruct (resolver_request_is_canonical no_unicode no_unicode net_ok
              (u "https://vm.tiktok.com/ZM8abc/") (u "ZM8abc") [])
    as ([r Hr] & Hurl & _).
  - reflexivity.
  - exists r. split; [exact Hr|exact Hurl].
Defined.

(** [/info] on the same world. *)
Example info_on_sample_world :
  get_video_info no_unicode no_unicode net_ok (u "https://v.douyin.com/ABC123/") []
  = (Ok {| info_status := u "success";
           info_video_id := u "ABC123";
           info_video_url := PStr (u "https://cdn.example/v.mp4");
           info_audio_url := PStr (u "https://cdn.example/a.mp3") |},
     [resolver_request (u "ABC123")]).
Proof. vm_compute. reflexivity. Qed.

(** Small chunk sizes show the cutting. *)
Example cut_pieces_blocks_of_four :
  cut_pieces 4 sample_body
  = [ [Byte.x00; Byte.x01; Byte.x02; Byte.x03];
      [Byte.x04; Byte.x05; Byte.x06; Byte.x07];
      [Byte.x08; Byte.x09] ].
Proof. reflexivity. Qed.

(** A media host that times out gives 504; an unreachable resolver gives
    502. *)
Example media_timeout_is_504 :
  download_douyin no_unicode no_unicode net_media_timeout
    (u "https://v.douyin.com/ABC123/") (u "video") []
  = (Raise (HTTPException 504 (u "Download failed: Read timed out.")),
     [resolver_request (u "ABC123");
      media_request (PStr (u "https://cdn.example/v.mp4"))]).
Proof. vm_compute. reflexivity. Qed.

Example resolver_down_is_502 :
  download_douyin no_unicode no_unicode net_down
    (u "https://v.douyin.com/ABC123/") (u "video") []
  = (Raise (HTTPException 502 (u "API request failed: Connection refused")),
     [resolver_request (u "ABC123")]).
Proof. vm_compute. reflexivity. Qed.

(** An identifier with ideographs cannot go into the header: the
    response object is not built and the answer is 500, after both
    requests. *)
Example ideograph_identifier_is_500 :
  download_douyin cjk_isalnum no_unicode net_ok
    (u "https://v.douyin.com/ABC" ++ [25171; 24320]%N) (u "video") []
  = (Raise (HTTPException 500
              (u "Unexpected error: 'latin-1' codec can't encode characters in position 37-38: ordinal not in range(256)")),
     [resolver_request (u "ABC" ++ [25171; 24320]%N);
      media_request (PStr (u "https://cdn.example/v.mp4"))]).
Proof. vm_compute. reflexivity. Qed.

Example one_ideograph_message :
  latin1_encode (u "AB" ++ [25171]%N ++ u ".mp4")
  = Raise (ValueError
             (u "'latin-1' codec can't encode character '\u6253' in position 2: ordinal not in range(256)")).
Proof. vm_compute. reflexivity. Qed.

(** C6: the failure of the media fetch is a 504 and the failures that
    [get_download_urls] reports are 502, but not every failure of the
    resolution stage is a 502. When the resolver answers
    [{"video_data": null, ...}] the subscript raises [TypeError], which
    [get_download_urls] does not catch (it catches [KeyError] and
    [ValueError]); the handler's last clause turns it into a 500. *)
Theorem null_video_data_is_500 :
  download_douyin no_unicode no_unicode net_null_video_data
    (u "https://v.douyin.com/ABC123/") (u "video") []
  = (Raise (HTTPException 500
              (u "Unexpected error: 'NoneType' object is not subscriptable")),
     [resolver_request (u "ABC123")]).
Proof. vm_compute. reflexivity. Qed.

(** * Further properties *)

(** ** What a successful extraction says about the input *)

Section ExtractSound.

Variable unicode_isalnum : char -> bool.
Variable unicode_isdecimal : char -> bool.

Abbreviation in_class := (Re.in_class unicode_isalnum unicode_isdecimal).
Abbreviation re_match := (Re.re_match unicode_isalnum unicode_isdecimal).
Abbreviation re_search := (Re.re_search unicode_isalnum unicode_isdecimal).
Abbreviation ends_run := (Re.ends_run unicode_isalnum unicode_isdecimal).
Abbreviation extract := (extract_douyin_id unicode_isalnum unicode_isdecimal).

Lemma re_match_literals_inv w p : forall s gs,
  re_match (List.map Re.Lit w ++ p) s = Some gs ->
  exists s', s = w ++ s' /\ re_match p s' = Some gs.
Proof.
  induction w as [|c w IH]; intros s gs H; [by exists s|].
  simpl in H. destruct s as [|c' s]; [discriminate|].
  destruct (N.eqb_spec c c') as [<-|]; [|discriminate].
  destruct (IH _ _ H) as (s' & -> & Hs'). by exists s'.
Qed.

(** With nothing after the group, the greedy repetition stops exactly
    where the class stops. *)
Lemma plus_bt_last k s : forall taken gs,
  Re.plus_bt unicode_isalnum unicode_isdecimal k (re_match []) taken s = Some gs ->
  exists w rest,
    s = w ++ rest /\ w <> [] /\ forallb (in_class k) w = true
    /\ ends_run k rest /\ gs = [rev taken ++ w].
Proof.
  induction s as [|c s IH]; intros taken gs H; simpl in H; [discriminate|].
  destruct (in_class k c) eqn:Hc; [|discriminate].
  destruct (Re.plus_bt _ _ k _ (c :: taken) s) as [gs1|] eqn:Hrec.
  - injection H as <-.
    destruct (IH _ _ Hrec) as (w & rest & -> & Hw & Hall & Hend & ->).
    exists (c :: w), rest. repeat split; try done.
    + simpl. by rewrite Hc.
    + simpl. by rewrite <- app_assoc.
  - injection H as <-. exists [c], s. repeat split; try done.
    + simpl. by rewrite Hc.
    + destruct s as [|c' s]; [done|]. simpl in *.
      destruct (in_class k c'); [|done].
      by destruct (Re.plus_bt _ _ k _ (c' :: c :: taken) s).
Qed.

Lemma re_match_share_link_inv host k s gs :
  re_match (Re.lits "http" ++ [Re.OptLit 115%N] ++ Re.lits host ++ [Re.GroupPlus k]) s
  = Some gs ->
  exists https id rest,
    s = share_link https host id rest
    /\ id <> [] /\ forallb (in_class k) id = true /\ ends_run k rest
    /\ gs = [id].
Proof.
  assert (Htail : forall t gs',
             re_match (Re.lits host ++ [Re.GroupPlus k]) t = Some gs' ->
             exists id rest,
               t = u host ++ id ++ rest
               /\ id <> [] /\ forallb (in_class k) id = true /\ ends_run k rest
               /\ gs' = [id]).
  { intros t gs' Ht. unfold Re.lits in Ht.
    apply re_match_literals_inv in Ht as (t' & -> & Ht'). simpl in Ht'.
    apply plus_bt_last in Ht' as (w & rest & -> & Hw & Hall & Hend & ->).
    by exists w, rest. }
  intros H. change (Re.lits "http") with (List.map Re.Lit (u "http")) in H.
  apply re_match_literals_inv in H as (s1 & -> & H).
  change (re_match (Re.OptLit 115%N :: (Re.lits host ++ [Re.GroupPlus k])) s1
          = Some gs) in H.
  assert (Hskip : re_match (Re.lits host ++ [Re.GroupPlus k]) s1 = Some gs ->
                  exists https id rest,
                    u "http" ++ s1 = share_link https host id rest
                    /\ id <> [] /\ forallb (in_class k) id = true
                    /\ ends_run k rest /\ gs = [id]).
  { intros (id & rest & -> & ?)%Htail. by exists false, id, rest. }
  destruct s1 as [|c s2]; [by apply Hskip|].
  destruct (N.eq_dec 115%N c) as [<-|Hne].
  - simpl in H. 
    destruct (Re.re_match _ _ (Re.lits host ++ [Re.GroupPlus k]) s2)
      as [gs1|] eqn:Htake.
    + injection H as <-.
      apply Htail in Htake as (id & rest & -> & ?). by exists true, id, rest.
    + by apply Hskip.
  - rewrite re_match_opt_skip in H by done. by apply Hskip.
Qed.

Lemma re_search_position p s : forall gs,
  re_search p s = Some gs ->
  exists pre t, s = pre ++ t /\ re_match p t = Some gs.
Proof.
  induction s as [|c s IH]; intros gs H; rewrite ReFacts.re_search_unfold in H.
  - destruct (re_match p []) eqn:Hm; [|done]. injection H as <-. by exists [], [].
  - destruct (re_match p (c :: s)) eqn:Hm.
    + injection H as <-. by exists [], (c :: s).
    + destruct (IH _ H) as (pre & t & -> & Ht). by exists (c :: pre), t.
Qed.

Lemma extract_Ok_inv url id :
  extract url = Ok id ->
  exists i host k https pre rest,
    link_shapes !! i = Some (host, k)
    /\ url = pre ++ share_link https host id rest
    /\ id <> [] /\ forallb (in_class k) id = true /\ ends_run k rest.
Proof.
  unfold extract_douyin_id.
  destruct (first_match unicode_isalnum unicode_isdecimal patterns url)
    as [id'|] eqn:Hfm; [|done].
  intros [= ->].
  destruct (first_match_Some _ _ _ _ _ Hfm) as (i & p & gs & Hi & Hp & -> & _).
  rewrite patterns_shapes, list_lookup_fmap in Hi.
  destruct (link_shapes !! i) as [[host k]|] eqn:Hshape; [|done].
  injection Hi as <-.
  apply re_search_position in Hp as (pre & t & -> & Ht).
  apply re_match_share_link_inv in Ht as (https & id & rest & -> & ? & ? & ? & ->).
  by exists i, host, k, https, pre, rest.
Qed.

(** X1: an identifier is returned only for an input that contains a
    share link of one of the three shapes with that identifier: the
    input is some text, then [http] or [https], the host of the shape,
    the identifier (non-empty, all of its characters in the class of the
    shape), and a rest that does not continue the identifier. *)
Theorem extract_sound url id :
  extract url = Ok id ->
  exists i host k https pre rest,
    link_shapes !! i = Some (host, k)
    /\ url = pre ++ share_link https host id rest
    /\ id <> [] /\ forallb (in_class k) id = true /\ ends_run k rest.
Proof. apply extract_Ok_inv. Qed.

Lemma in_class_ascii k c :
  in_class k c = true -> (c < 128)%N -> Re.is_ascii_word c = true.
Proof.
  intros H Hc. apply N.ltb_lt in Hc. unfold Re.in_class in H. rewrite Hc in H.
  destruct k; [done|]. unfold Re.is_ascii_word. by rewrite H.
Qed.

(** X2: an extracted identifier is never empty, and each of its ASCII
    characters is a letter, a digit or the underscore; so it holds none
    of the characters [/ ? & # = % : .] or a space, and the resolver URL
    built from it cannot be bent by them. *)
Theorem extract_id_ascii_word url id :
  extract url = Ok id ->
  id <> []
  /\ Forall (fun c => (c < 128)%N -> Re.is_ascii_word c = true) id
  /\ (forall c, c ∈ u "/?&#=%:. " -> c ∉ id).
Proof.
  intros (i & host & k & https & pre & rest & _ & _ & Hne & Hall & _)%extract_Ok_inv.
  assert (Hword : Forall (fun c => (c < 128)%N -> Re.is_ascii_word c = true) id).
  { clear Hne. induction id as [|c id IH]; [constructor|].
    simpl in Hall. apply andb_true_iff in Hall as [Hc Hall].
    constructor; [by apply in_class_ascii with k|by apply IH]. }
  split; [done|]. split; [done|].
  intros c Hc Hin. rewrite Forall_forall in Hword. specialize (Hword c Hin).
  vm_compute in Hc.
  repeat (apply elem_of_cons in Hc as [->|Hc]; [by specialize (Hword eq_refl)|]).
  by apply elem_of_nil in Hc.
Qed.



End ExtractSound.

Lemma extract_sound_witness :
  exists i host k https pre rest,
    link_shapes !! i = Some (host, k)
    /\ [22797; 21046]%N ++ u " https://v.douyin.com/ABC123/ x"
       = pre ++ share_link https host (u "ABC123") rest
    /\ u "ABC123" <> []
    /\ forallb (Re.in_class cjk_isalnum no_unicode k) (u "ABC123") = true
    /\ Re.ends_run cjk_isalnum no_unicode k rest.
Proof.
  apply (extract_sound cjk_isalnum no_unicode
           ([22797; 21046]%N ++ u " https://v.douyin.com/ABC123/ x") (u "ABC123")).
  reflexivity.
Defined.

Lemma extract_id_ascii_word_witness :
  u "1234567890123456789" <> []
  /\ Forall (fun c => (c < 128)%N -> Re.is_ascii_word c = true)
       (u "1234567890123456789")
  /\ (forall c, c ∈ u "/?&#=%:. " -> c ∉ u "1234567890123456789").
Proof.
  apply (extract_id_ascii_word no_unicode no_unicode
           (u "see https://www.douyin.com/video/1234567890123456789?x=1")).
  reflexivity.
Defined.


(** ** The two handlers together *)

Section HandlerMore.

Variable unicode_isalnum : char -> bool.
Variable unicode_isdecimal : char -> bool.
Variable net : network.

Abbreviation occurs_in := (Re.occurs_in unicode_isalnum unicode_isdecimal).
Abbreviation extract := (extract_douyin_id unicode_isalnum unicode_isdecimal).
Abbreviation info := (get_video_info unicode_isalnum unicode_isdecimal net).
Abbreviation download :=
  (download_douyin unicode_isalnum unicode_isdecimal net).

(** [/info], stage by stage. *)
Lemma get_video_info_stages url log :
  info url log =
  match extract url with
  | Raise e => (Raise (info_except e), log)
  | Ok video_id =>
      match get_download_urls net video_id log with
      | (Raise e, log1) => (Raise (info_except e), log1)
      | (Ok download_urls, log1) =>
          match download_urls !! u "video", download_urls !! u "audio" with
          | Some video, Some audio =>
              (Ok {| info_status := u "success";
                     info_video_id := video_id;
                     info_video_url := video;
                     info_audio_url := audio |}, log1)
          | None, _ =>
              (Raise (info_except (KeyError (u "video"))), log1)
          | Some _, None =>
              (Raise (info_except (KeyError (u "audio"))), log1)
          end
      end
  end.
Proof.
  unfold get_video_info, try_except, bind, lift, raise, ret, dict_getitem.
  destruct (extract url) as [video_id|e]; [|done].
  destruct (get_download_urls net video_id log) as [[download_urls|e] log1];
    [|done].
  destruct (download_urls !! u "video"); [|done].
  by destruct (download_urls !! u "audio").
Qed.

Lemma extract_unmatched url :
  (forall p, p ∈ patterns -> ~ occurs_in p url) ->
  extract url = Raise (HTTPException 400 invalid_url_detail).
Proof.
  intros Hnone. unfold extract_douyin_id.
  rewrite (proj2 (first_match_None _ _ patterns url)); [done|].
  intros p Hp. apply ReFacts.re_search_None. auto.
Qed.

Lemma raise_for_status_error response :
  400 <= status_code response < 600 ->
  exists m, raise_for_status response = Raise (RequestException m).
Proof.
  intros Hst. unfold raise_for_status.
  destruct (Z.leb_spec 400 (status_code response)),
    (Z.ltb_spec (status_code response) 500); simpl; try (by eexists); try lia.
  destruct (Z.leb_spec 500 (status_code response)),
    (Z.ltb_spec (status_code response) 600); simpl; try (by eexists); lia.
Qed.

Lemma resolver_unavailable_502 video_id log :
  resolver_unavailable net video_id log ->
  exists detail,
    get_download_urls net video_id log
    = (Raise (HTTPException 502 (u "API request failed: " ++ detail)),
       log ++ [resolver_request video_id]).
Proof.
  unfold resolver_unavailable. intros H.
  apply get_download_urls_transport_failure.
  destruct (net log (resolver_request video_id)) as [msg|response];
    [left; by eexists|].
  right. destruct H as [Hst|Hjs].
  - destruct (raise_for_status_error _ Hst) as [m Hm]. eauto 6.
  - exists response, (ValueError []). eauto.
Qed.

(** X3: when the link is supported and the resolver answers with the
    well-formed object, [/info] returns status ["success"], the
    identifier, and the two nested values as [video_url] and
    [audio_url], after exactly one request. *)
Theorem info_returns_nested_urls url video_id log d vd md pu video audio :
  extract url = Ok video_id ->
  resolver_answers net video_id log (PDict d) ->
  d !! u "video_data" = Some (PDict vd) ->
  vd !! u "nwm_video_url" = Some video ->
  d !! u "music_data" = Some (PDict md) ->
  md !! u "play_url" = Some (PDict pu) ->
  pu !! u "uri" = Some audio ->
  info url log
  = (Ok {| info_status := u "success";
           info_video_id := video_id;
           info_video_url := video;
           info_audio_url := audio |},
     log ++ [resolver_request video_id]).
Proof.
  intros Hid Hans Hvd Hv Hmd Hpu Ha.
  rewrite get_video_info_stages, Hid, (get_download_urls_parsed _ _ _ _ Hans).
  rewrite (parse_urls_well_formed _ _ _ _ _ _ Hvd Hv Hmd Hpu Ha).
  rewrite lookup_insert_eq, lookup_insert_ne by done.
  by rewrite lookup_insert_eq.
Qed.

(** X4: every failure of [/info] is an [HTTPException]. It is the 400
    with the list of formats, and nothing was sent, when extraction
    failed; otherwise the resolver request was the only one sent and the
    status is 502 or 500. [/info] never answers 504. *)
Theorem info_failure_statuses url log e log' :
  info url log = (Raise e, log') ->
  (extract url = Raise (HTTPException 400 invalid_url_detail)
   /\ e = HTTPException 400 invalid_url_detail /\ log' = log)
  \/ (exists video_id status detail,
        extract url = Ok video_id
        /\ e = HTTPException status detail
        /\ (status = 502 \/ status = 500)
        /\ log' = log ++ [resolver_request video_id]).
Proof.
  rewrite get_video_info_stages.
  destruct (extract url) as [video_id|e0] eqn:Hid.
  - pose proof (get_download_urls_log net video_id log) as Hlog.
    destruct (get_download_urls net video_id log) as [[urls|e1] log1] eqn:Hurls;
      simpl in Hlog; subst log1.
    + destruct (urls !! u "video"), (urls !! u "audio");
        intros [= <- <-]; right; exists video_id; eexists _, _; eauto.
    + intros [= <- <-]. right. exists video_id.
      destruct (get_download_urls_Raise _ _ _ _ _ Hurls) as [[dd ->]|[m ->]];
        eexists _, _; simpl; eauto.
  - apply extract_Raise in Hid as ->. intros [= <- <-]. by left.
Qed.

(** X5: when the resolver is unavailable (the request fails, the status
    is 4xx or 5xx, or the body is not JSON) both handlers answer 502
    with a detail that starts with [API request failed: ], and
    [/download] does so whatever the media type. *)
Theorem resolver_unavailable_is_502 url video_id log :
  extract url = Ok video_id ->
  resolver_unavailable net video_id log ->
  exists detail,
    info url log
    = (Raise (HTTPException 502 (u "API request failed: " ++ detail)),
       log ++ [resolver_request video_id])
    /\ forall media_type,
         download url media_type log
         = (Raise (HTTPException 502 (u "API request failed: " ++ detail)),
            log ++ [resolver_request video_id]).
Proof.
  intros Hid (detail & Hres)%resolver_unavailable_502.
  exists detail. split.
  - by rewrite get_video_info_stages, Hid, Hres.
  - intros media_type. by rewrite download_douyin_stages, Hid, Hres.
Qed.

(** X6: for an input in which none of the three patterns occurs, both
    handlers answer the 400 with the list of formats and send no request
    at all. *)
Theorem unsupported_url_sends_nothing url log :
  (forall p, p ∈ patterns -> ~ occurs_in p url) ->
  info url log = (Raise (HTTPException 400 invalid_url_detail), log)
  /\ forall media_type,
       download url media_type log
       = (Raise (HTTPException 400 invalid_url_detail), log).
Proof.
  intros Hid%extract_unmatched. split.
  - by rewrite get_video_info_stages, Hid.
  - intros media_type. by rewrite download_douyin_stages, Hid.
Qed.


Lemma first_unencodable_None text : forall pos,
  first_unencodable text pos = None <-> Forall (fun c => (c < 256)%N) text.
Proof.
  induction text as [|c text IH]; intros pos; simpl.
  - split; [constructor|done].
  - destruct (N.ltb_spec c 256) as [Hc|Hc].
    + rewrite IH. split; [by constructor|]. by inversion 1.
    + split; [done|]. inversion 1; subst. lia.
Qed.

(** Encoding as latin-1 succeeds exactly on text without a character
    above U+00FF. *)
Lemma latin1_encode_Ok text :
  latin1_encode text = Ok tt <-> Forall (fun c => (c < 256)%N) text.
Proof.
  rewrite <- (first_unencodable_None text 0). unfold latin1_encode.
  destruct (first_unencodable text 0) as [[[start c] rest]|]; split; done.
Qed.

(** The [Content-Disposition] value can be encoded exactly when the
    identifier can, the media type being one of the two words. *)
Lemma content_disposition_latin1 media_type video_id :
  media_type = u "video" \/ media_type = u "audio" ->
  latin1_encode (content_disposition media_type video_id) = Ok tt
  <-> Forall (fun c => (c < 256)%N) video_id.
Proof.
  intros Hmt. rewrite latin1_encode_Ok. unfold content_disposition.
  assert (Hascii : forall text : string, 
             forallb (fun c => (c <? 256)%N) (u text) = true ->
             Forall (fun c => (c < 256)%N) (u text)).
  { intros text H. apply Forall_forall. intros c Hc.
    rewrite forallb_forall in H. apply N.ltb_lt, H. by apply list_elem_of_In. }
  rewrite !Forall_app.
  destruct Hmt as [-> | ->]; vm_compute is_video; cbv iota;
    (split; [tauto|]); intros Hid;
    repeat split; try done; by apply Hascii.
Qed.


(** X8: once extraction and resolution have succeeded and the media type
    selects a URL, a media request that raises, or whose response has a
    4xx or 5xx status, makes [/download] answer 504 with a detail that
    starts with [Download failed: ]. *)
Theorem download_media_failure_504 url media_type log video_id urls log1 media_url :
  extract url = Ok video_id ->
  get_download_urls net video_id log = (Ok urls, log1) ->
  urls !! media_type = Some media_url ->
  media_fetch_fails net log1 media_url ->
  exists detail,
    download url media_type log
    = (Raise (HTTPException 504 (u "Download failed: " ++ detail)),
       log1 ++ [media_request media_url]).
Proof. apply media_fetch_failure_504. Qed.

(** X9: [/download] succeeds exactly when extraction succeeds, the
    resolver returns its dict, the media type selects an entry of it
    (so it is ["video"] or ["audio"]), the media request is answered
    with a status outside 400..599, and the identifier has no character
    above U+00FF (the [Content-Disposition] value must be encoded as
    latin-1). The requests sent are then the resolver request followed
    by the media request for the selected value. *)
Theorem download_succeeds_iff url media_type log :
  (forall sr log',
      download url media_type log = (Ok sr, log') ->
      exists video_id urls media_url response,
        extract url = Ok video_id
        /\ get_download_urls net video_id log
           = (Ok urls, log ++ [resolver_request video_id])
        /\ urls !! media_type = Some media_url
        /\ (media_type = u "video" \/ media_type = u "audio")
        /\ net (log ++ [resolver_request video_id]) (media_request media_url)
           = inr response
        /\ (status_code response < 400 \/ 600 <= status_code response)
        /\ Forall (fun c => (c < 256)%N) video_id
        /\ log' = log ++ [resolver_request video_id; media_request media_url])
  /\ (forall video_id urls log1 media_url response,
        extract url = Ok video_id ->
        get_download_urls net video_id log = (Ok urls, log1) ->
        urls !! media_type = Some media_url ->
        net log1 (media_request media_url) = inr response ->
        status_code response < 400 \/ 600 <= status_code response ->
        Forall (fun c => (c < 256)%N) video_id ->
        exists sr,
          download url media_type log
          = (Ok sr, log1 ++ [media_request media_url])).
Proof.
  split.
  - intros sr log' H. rewrite download_douyin_stages in H.
    destruct (extract url) as [video_id|e0] eqn:Hid; [|done].
    pose proof (get_download_urls_log net video_id log) as Hlog.
    destruct (get_download_urls net video_id log) as [[urls|e1] log1] eqn:Hurls;
      simpl in Hlog; subst log1; [|done].
    destruct (urls !! media_type) as [media_url|] eqn:Hmt; [|done].
    destruct (net (log ++ [resolver_request video_id]) (media_request media_url))
      as [msg|response] eqn:Hnet; [done|].
    destruct (raise_for_status response) as [[]|e2] eqn:Hst; [|done].
    destruct (latin1_encode (content_disposition media_type video_id))
      as [[]|e3] eqn:Henc; [|done].
    injection H as _ <-. exists video_id, urls, media_url, response.
    assert (Hkey : media_type = u "video" \/ media_type = u "audio").
    { apply (download_urls_keys _ _ _ _ _ _ Hurls). by eexists. }
    split; [done|]. split; [done|]. split; [done|]. split; [done|].
    split; [done|]. split; [by apply raise_for_status_Ok|].
    split; [by apply (content_disposition_latin1 _ _ Hkey)|].
    by rewrite <- app_assoc.
  - intros video_id urls log1 media_url response Hid Hurls Hmt Hnet Hst Hlatin.
    rewrite download_douyin_stages, Hid, Hurls, Hmt, Hnet.
    apply raise_for_status_Ok in Hst. rewrite Hst.
    assert (Hkey : media_type = u "video" \/ media_type = u "audio").
    { apply (download_urls_keys _ _ _ _ _ _ Hurls). by eexists. }
    apply (content_disposition_latin1 _ _ Hkey) in Hlatin. rewrite Hlatin.
    by eexists.
Qed.

(** What [get_download_urls] returns depends on the world only through
    the answer to its one request. *)
Lemma get_download_urls_same_answer video_id log log2 :
  net log2 (resolver_request video_id) = net log (resolver_request video_id) ->
  get_download_urls net video_id log2
  = ((get_download_urls net video_id log).1, log2 ++ [resolver_request video_id]).
Proof.
  intros Hsame.
  unfold get_download_urls, try_except, bind, lift, requests_get, raise.
  rewrite Hsame.
  destruct (net log (resolver_request video_id)) as [msg|response]; [done|].
  destruct (raise_for_status response) as [[]|e1]; simpl.
  2: { by destruct e1. }
  destruct (response_json response) as [data|e2]; simpl.
  2: { by destruct e2. }
  destruct (parse_urls data) as [urls|e3]; simpl; [done|by destruct e3].
Qed.

(** X10: the two handlers agree as long as the resolver gives
    [/download] the answer it gave [/info]. When [/info] reports
    [video_url] and [audio_url] for an input, a [/download] of the same
    input whose resolver request is answered in the same way fetches
    exactly the reported [video_url] for ["video"] and the reported
    [audio_url] for ["audio"]. *)
Theorem info_download_same_url url log answer log1 log2 :
  info url log = (Ok answer, log1) ->
  net log2 (resolver_request (info_video_id answer))
  = net log (resolver_request (info_video_id answer)) ->
  info_status answer = u "success"
  /\ extract url = Ok (info_video_id answer)
  /\ (exists r, download url (u "video") log2
                = (r, log2 ++ [resolver_request (info_video_id answer);
                               media_request (info_video_url answer)]))
  /\ (exists r, download url (u "audio") log2
                = (r, log2 ++ [resolver_request (info_video_id answer);
                               media_request (info_audio_url answer)])).
Proof.
  intros H. rewrite get_video_info_stages in H.
  rewrite !download_douyin_stages.
  destruct (extract url) as [video_id|e0] eqn:Hid; [|done].
  destruct (get_download_urls net video_id log) as [[urls|e1] log0] eqn:Hurls;
    [|done].
  destruct (urls !! u "video") as [video|] eqn:Hv; [|done].
  destruct (urls !! u "audio") as [audio|] eqn:Ha; [|done].
  injection H as <- <-. simpl. intros Hsame.
  rewrite (get_download_urls_same_answer _ _ _ Hsame), Hurls. simpl.
  rewrite Hv, Ha.
  split; [done|]. split; [done|]. split.
  - destruct (net _ (media_request video)) as [msg|response];
      [rewrite <- app_assoc; by eexists|].
    destruct (raise_for_status response) as [[]|e2];
      [|rewrite <- app_assoc; by eexists].
    destruct (latin1_encode _) as [[]|e3]; rewrite <- app_assoc; by eexists.
  - destruct (net _ (media_request audio)) as [msg|response];
      [rewrite <- app_assoc; by eexists|].
    destruct (raise_for_status response) as [[]|e2];
      [|rewrite <- app_assoc; by eexists].
    destruct (latin1_encode _) as [[]|e3]; rewrite <- app_assoc; by eexists.
Qed.

(** X11: [get_download_urls] returns a result only if the resolver
    answered with a status outside 400..599 and a JSON object whose
    [video_data], [music_data] and [play_url] envelopes are objects
    holding the keys; the result is then the dict of the two nested
    values and one request was sent. *)
Theorem resolve_success_only_if video_id log urls log' :
  get_download_urls net video_id log = (Ok urls, log') ->
  exists response d vd md pu video audio,
    net log (resolver_request video_id) = inr response
    /\ (status_code response < 400 \/ 600 <= status_code response)
    /\ json_body response = inr (PDict d)
    /\ d !! u "video_data" = Some (PDict vd)
    /\ vd !! u "nwm_video_url" = Some video
    /\ d !! u "music_data" = Some (PDict md)
    /\ md !! u "play_url" = Some (PDict pu)
    /\ pu !! u "uri" = Some audio
    /\ urls = <[u "video" := video]> (<[u "audio" := audio]> ∅)
    /\ log' = log ++ [resolver_request video_id].
Proof.
  intros (response & data & Hnet & Hst & Hjs & Hp & ->)%get_download_urls_Ok.
  destruct (parse_urls_Ok _ _ Hp)
    as (d & vd & md & pu & video & audio & -> & ? & ? & ? & ? & ? & ->).
  exists response, d, vd, md, pu, video, audio.
  apply raise_for_status_Ok in Hst. by repeat split.
Qed.

(** X12: when the decoded response does not contain [video_data] or does
    not contain [music_data] (an object without the key, an array
    without that string, a string without that text),
    [get_download_urls] answers 502 with the detail
    [API response error: Invalid API response structure]. *)
Theorem invalid_structure_is_502 video_id log data :
  resolver_answers net video_id log data ->
  py_in (u "video_data") data = Ok false
  \/ py_in (u "music_data") data = Ok false ->
  get_download_urls net video_id log
  = (Raise (HTTPException 502
              (u "API response error: Invalid API response structure")),
     log ++ [resolver_request video_id]).
Proof.
  intros Hans Hin. rewrite (get_download_urls_parsed _ _ _ _ Hans).
  assert (Hp : parse_urls data
               = Raise (ValueError (u "Invalid API response structure"))).
  { unfold parse_urls, rbind. destruct Hin as [-> | Hm]; [done|].
    destruct (py_in (u "video_data") data) as [[|]|e] eqn:Hv; simpl.
    - by rewrite Hm.
    - done.
    - destruct data; simpl in *; discriminate. }
  by rewrite Hp.
Qed.

(** X14: when the resolver's object holds [music_data] and a
    [video_data] that is not an object, the subscript raises
    [TypeError], which [get_download_urls] lets through; both handlers
    then answer 500 with a detail that starts with
    [Unexpected error: ]. *)
Theorem non_object_video_data_is_500 url video_id log d v :
  extract url = Ok video_id ->
  resolver_answers net video_id log (PDict d) ->
  d !! u "video_data" = Some v ->
  (forall vd, v <> PDict vd) ->
  is_Some (d !! u "music_data") ->
  exists m,
    get_download_urls net video_id log
    = (Raise (TypeError m), log ++ [resolver_request video_id])
    /\ info url log
       = (Raise (HTTPException 500 (u "Unexpected error: " ++ m)),
          log ++ [resolver_request video_id])
    /\ forall media_type,
         download url media_type log
         = (Raise (HTTPException 500 (u "Unexpected error: " ++ m)),
            log ++ [resolver_request video_id]).
Proof.
  intros Hid Hans Hv Hnot [md Hmd].
  assert (Hp : exists m, parse_urls (PDict d) = Raise (TypeError m)).
  { unfold parse_urls, rbind, py_in, py_getitem. rewrite Hv, Hmd. simpl.
    destruct v; try by eexists. by destruct (Hnot d0). }
  destruct Hp as [m Hp]. exists m.
  assert (Hres : get_download_urls net video_id log
                 = (Raise (TypeError m), log ++ [resolver_request video_id])).
  { by rewrite (get_download_urls_parsed _ _ _ _ Hans), Hp. }
  split; [done|]. split.
  - by rewrite get_video_info_stages, Hid, Hres.
  - intros media_type. by rewrite download_douyin_stages, Hid, Hres.
Qed.

End HandlerMore.

(** ** More on the chunks *)

Lemma cut_pieces_length n raw :
  (0 < n)%nat ->
  length (cut_pieces n raw) = ((length raw + n - 1) / n)%nat.
Proof.
  funelim (cut_pieces n raw); intros Hn; simp cut_pieces; [lia| |].
  - cbn [length]. replace (0 + S n - 1)%nat with n by lia.
    symmetry. apply Nat.div_small. lia.
  - cbn [length].
    match goal with IH : _ -> length _ = _ |- _ => rewrite IH by lia end.
    rewrite length_drop. cbn [length].
    destruct (decide (length raw < S n)%nat) as [Hshort|Hlong].
    + replace (S (length raw) - S n + S n - 1)%nat with n by lia.
      rewrite (Nat.div_small n (S n)) by lia.
      apply (Nat.div_unique _ _ 1%nat (length raw)); lia.
    + replace (S (length raw) + S n - 1)%nat
        with ((S (length raw) - S n + S n - 1) + 1 * S n)%nat by lia.
      rewrite Nat.div_add by lia. lia.
Qed.

Section StreamingMore.

Variable unicode_isalnum : char -> bool.
Variable unicode_isdecimal : char -> bool.
Variable net : network.

(** X13: when the media response is sent whole under a [Content-Length]
    (not chunked) and without a content encoding, every chunk of a
    successful download except the last is a full block of 1024 * 1024
    bytes, the number of chunks is the body size divided by 1024 * 1024
    and rounded up, and an empty media body gives no chunk at all. *)
Theorem download_chunks_are_full_blocks url media_type log sr log' :
  download_douyin unicode_isalnum unicode_isdecimal net url media_type log
  = (Ok sr, log') ->
  exists log1 media_url response,
    net log1 (media_request media_url) = inr response
    /\ log' = log1 ++ [media_request media_url]
    /\ forall raw,
         body response = ContentLength raw ->
         content_encoding response = None ->
         (forall i chunk,
             body_iterator sr !! i = Some chunk ->
             (S i < length (body_iterator sr))%nat ->
             Z.of_nat (length chunk) = 1024 * 1024)
         /\ Z.of_nat (length (body_iterator sr))
            = (Z.of_nat (length raw) + 1024 * 1024 - 1) / (1024 * 1024)
         /\ (raw = [] -> body_iterator sr = []).
Proof.
  rewrite download_douyin_stages.
  destruct (extract_douyin_id _ _ url) as [video_id|e]; [|done].
  destruct (get_download_urls net video_id log) as [[urls|e] log1]; [|done].
  destruct (urls !! media_type) as [media_url|]; [|done].
  destruct (net log1 (media_request media_url)) as [msg|response] eqn:Hnet;
    [done|].
  destruct (raise_for_status response) as [[]|e]; [|done].
  destruct (latin1_encode (content_disposition media_type video_id))
    as [[]|e]; [|done].
  intros [= <- <-]. exists log1, media_url, response. simpl.
  split; [done|]. split; [done|]. intros raw Hbody Hnone.
  unfold iter_content. rewrite Hbody, Hnone.
  assert (Hn : Z.of_nat (Z.to_nat CHUNK_SIZE) = 1024 * 1024)
    by (unfold CHUNK_SIZE; lia).
  set (n := Z.to_nat CHUNK_SIZE) in *.
  assert (Hpos : (0 < n)%nat) by lia.
  split; [|split].
  - intros i chunk Hi Hlen.
    rewrite (cut_pieces_full_blocks _ _ _ _ Hi Hlen). exact Hn.
  - rewrite (cut_pieces_length _ _ Hpos).
    rewrite Nat2Z.inj_div, Nat2Z.inj_sub, Nat2Z.inj_add by lia.
    by rewrite Hn.
  - intros ->. destruct n; [lia|]. by simp cut_pieces.
Qed.

End StreamingMore.

(** ** Runs for the properties above *)

Lemma info_returns_nested_urls_witness :
  get_video_info no_unicode no_unicode net_ok (u "https://v.douyin.com/ABC123/") []
  = (Ok {| info_status := u "success";
           info_video_id := u "ABC123";
           info_video_url := PStr (u "https://cdn.example/v.mp4");
           info_audio_url := PStr (u "https://cdn.example/a.mp3") |},
     [] ++ [resolver_request (u "ABC123")]).
Proof.
  eapply (info_returns_nested_urls no_unicode no_unicode net_ok).
  - reflexivity.
  - eexists. repeat split; reflexivity.
  - reflexivity.
  - reflexivity.
  - reflexivity.
  - reflexivity.
  - reflexivity.
Defined.

Lemma info_failure_statuses_witness :
  exists video_id status detail,
    extract_douyin_id no_unicode no_unicode (u "https://v.douyin.com/ABC123/")
    = Ok video_id
    /\ (status = 502 \/ status = 500)
    /\ get_video_info no_unicode no_unicode net_resolver_500
         (u "https://v.douyin.com/ABC123/") []
       = (Raise (HTTPException status detail), [] ++ [resolver_request video_id]).
Proof.
  assert (Hrun : exists e log',
             get_video_info no_unicode no_unicode net_resolver_500
               (u "https://v.douyin.com/ABC123/") [] = (Raise e, log')).
  { eexists _, _. vm_compute. reflexivity. }
  destruct Hrun as (e & log' & Hrun).
  destruct (info_failure_statuses no_unicode no_unicode net_resolver_500
              _ _ _ _ Hrun)
    as [(Hbad & _)|(video_id & status & detail & Hid & -> & Hst & ->)].
  - discriminate.
  - by exists video_id, status, detail.
Defined.

Lemma resolver_unavailable_is_502_witness :
  exists detail,
    get_video_info no_unicode no_unicode net_resolver_500
      (u "https://v.douyin.com/ABC123/") []
    = (Raise (HTTPException 502 (u "API request failed: " ++ detail)),
       [] ++ [resolver_request (u "ABC123")]).
Proof.
  destruct (resolver_unavailable_is_502 no_unicode no_unicode net_resolver_500
              (u "https://v.douyin.com/ABC123/") (u "ABC123") [])
    as (detail & Hinfo & _).
  - reflexivity.
  - unfold resolver_unavailable. simpl. left. lia.
  - by exists detail.
Defined.

Lemma unsupported_url_sends_nothing_witness :
  get_video_info no_unicode no_unicode net_ok (u "https://example.com/video/42") []
  = (Raise (HTTPException 400 invalid_url_detail), []).
Proof.
  apply (unsupported_url_sends_nothing no_unicode no_unicode net_ok).
  intros p Hp. apply ReFacts.re_search_None.
  unfold patterns in Hp.
  repeat (apply elem_of_cons in Hp as [->|Hp]; [reflexivity|]).
  by apply elem_of_nil in Hp.
Defined.


Lemma download_media_failure_504_witness :
  exists detail,
    download_douyin no_unicode no_unicode net_media_404
      (u "https://v.douyin.com/ABC123/") (u "video") []
    = (Raise (HTTPException 504 (u "Download failed: " ++ detail)),
       [resolver_request (u "ABC123")]
       ++ [media_request (PStr (u "https://cdn.example/v.mp4"))]).
Proof.
  eapply (download_media_failure_504 no_unicode no_unicode net_media_404
            _ _ [] (u "ABC123")).
  - reflexivity.
  - vm_compute. reflexivity.
  - vm_compute. reflexivity.
  - unfold media_fetch_fails. simpl. by eexists.
Defined.

Lemma download_succeeds_iff_witness :
  exists video_id media_url,
    extract_douyin_id no_unicode no_unicode (u "https://v.douyin.com/ABC123/")
    = Ok video_id
    /\ Forall (fun c => (c < 256)%N) video_id
    /\ exists sr,
         download_douyin no_unicode no_unicode net_ok
           (u "https://v.douyin.com/ABC123/") (u "audio") []
         = (Ok sr, [] ++ [resolver_request video_id; media_request media_url]).
Proof.
  assert (Hrun : exists sr log',
             download_douyin no_unicode no_unicode net_ok
               (u "https://v.douyin.com/ABC123/") (u "audio") [] = (Ok sr, log')).
  { eexists _, _. vm_compute. reflexivity. }
  destruct Hrun as (sr & log' & Hrun).
  destruct (proj1 (download_succeeds_iff no_unicode no_unicode net_ok
                     (u "https://v.douyin.com/ABC123/") (u "audio") [])
              sr log' Hrun)
    as (video_id & urls & media_url & response
        & Hid & _ & _ & _ & _ & _ & Hlatin & ->).
  exists video_id, media_url. split; [exact Hid|]. split; [exact Hlatin|].
  by exists sr.
Defined.

(** [/info] first, then [/download] with the first request already in
    the log. *)
Lemma info_download_same_url_witness :
  exists answer log1 r,
    get_video_info no_unicode no_unicode net_ok (u "https://v.douyin.com/ABC123/") []
    = (Ok answer, log1)
    /\ download_douyin no_unicode no_unicode net_ok
         (u "https://v.douyin.com/ABC123/") (u "video") log1
       = (r, log1 ++ [resolver_request (info_video_id answer);
                      media_request (info_video_url answer)]).
Proof.
  assert (Hrun : exists answer log1,
             get_video_info no_unicode no_unicode net_ok
               (u "https://v.douyin.com/ABC123/") [] = (Ok answer, log1)).
  { eexists _, _. vm_compute. reflexivity. }
  destruct Hrun as (answer & log1 & Hrun).
  destruct (info_download_same_url no_unicode no_unicode net_ok _ _ _ _ log1 Hrun)
    as (_ & _ & [r Hr] & _).
  - reflexivity.
  - by exists answer, log1, r.
Defined.

Lemma resolve_success_only_if_witness :
  exists urls video audio,
    get_download_urls net_ok (u "ABC123") []
    = (Ok urls, [] ++ [resolver_request (u "ABC123")])
    /\ urls = <[u "video" := video]> (<[u "audio" := audio]> ∅).
Proof.
  assert (Hrun : exists urls log',
             get_download_urls net_ok (u "ABC123") [] = (Ok urls, log')).
  { eexists _, _. vm_compute. reflexivity. }
  destruct Hrun as (urls & log' & Hrun).
  destruct (resolve_success_only_if net_ok _ _ _ _ Hrun)
    as (response & d & vd & md & pu & video & audio
        & _ & _ & _ & _ & _ & _ & _ & _ & Hurls & Hlog).
  exists urls, video, audio. split; [|exact Hurls].
  rewrite Hrun. by rewrite Hlog.
Defined.

Lemma invalid_structure_is_502_witness :
  get_download_urls net_array_answer (u "ABC123") []
  = (Raise (HTTPException 502
              (u "API response error: Invalid API response structure")),
     [] ++ [resolver_request (u "ABC123")]).
Proof.
  apply (invalid_structure_is_502 net_array_answer (u "ABC123") []
           (PList [PStr (u "error")])).
  - eexists. repeat split; reflexivity.
  - left. reflexivity.
Defined.

Lemma download_chunks_are_full_blocks_witness :
  exists sr,
    download_douyin no_unicode no_unicode net_big_body
      (u "https://v.douyin.com/ABC123/") (u "video") []
    = (Ok sr, [resolver_request (u "ABC123");
               media_request (PStr (u "https://cdn.example/v.mp4"))])
    /\ length (body_iterator sr) = 2%nat
    /\ (forall chunk, body_iterator sr !! 0%nat = Some chunk ->
                      Z.of_nat (length chunk) = 1024 * 1024).
Proof.
  assert (Hrun := sample_download big_response eq_refl).
  destruct (download_chunks_are_full_blocks no_unicode no_unicode net_big_body
              _ _ _ _ _ Hrun)
    as (log1 & media_url & response & Hnet & _ & Hprops).
  assert (Hmedia : net_big_body log1 (media_request media_url) = inr big_response)
    by reflexivity.
  rewrite Hmedia in Hnet. injection Hnet as <-.
  assert (Hbody : body big_response = ContentLength big_body) by reflexivity.
  assert (Hnone : content_encoding big_response = None) by reflexivity.
  destruct (Hprops big_body Hbody Hnone) as (Hfull & Hcount & _).
  assert (Hbig : Z.of_nat (length big_body) = 1024 * 1024 + 5).
  { unfold big_body. rewrite length_replicate, Nat2Z.inj_add, Z2Nat.id.
    - unfold CHUNK_SIZE. lia.
    - unfold CHUNK_SIZE. lia. }
  rewrite Hbig in Hcount.
  change ((1024 * 1024 + 5 + 1024 * 1024 - 1) / (1024 * 1024)) with 2 in Hcount.
  assert (Htwo : length
                   (body_iterator
                      {| body_iterator := iter_content (Z.to_nat CHUNK_SIZE) big_response;
                         media_type_header := u "video/mp4";
                         headers :=
                           {[ u "Content-Disposition" :=
                                u "attachment; filename=douyin_video_ABC123.mp4" ]} |})
                 = 2%nat) by lia.
  eexists. split; [exact Hrun|]. split; [exact Htwo|].
  intros chunk Hchunk. apply (Hfull 0%nat chunk Hchunk). rewrite Htwo. lia.
Defined.

Lemma non_object_video_data_is_500_witness :
  exists m,
    get_video_info no_unicode no_unicode net_null_video_data
      (u "https://v.douyin.com/ABC123/") []
    = (Raise (HTTPException 500 (u "Unexpected error: " ++ m)),
       [] ++ [resolver_request (u "ABC123")]).
Proof.
  destruct (non_object_video_data_is_500 no_unicode no_unicode net_null_video_data
              (u "https://v.douyin.com/ABC123/") (u "ABC123") []
              (list_to_map
                 [ (u "video_data", PNone);
                   (u "music_data",
                    json_object
                      [(u "play_url",
                        json_object
                          [(u "uri", PStr (u "https://cdn.example/a.mp3"))])]) ])
              PNone)
    as (m & _ & Hinfo & _).
  - reflexivity.
  - eexists. repeat split; reflexivity.
  - reflexivity.
  - discriminate.
  - eexists. reflexivity.
  - by exists m.
Defined.
